(** * Women in Mathematics adapter: prepare.py and submit.py

    A shallow embedding of the two scripts of the adapter
    (src/women_in_mathematics/defs/adapter/src/prepare.py and submit.py)
    together with the properties of their behaviour.

    Conventions of the embedding.
    - Python [str] values are [string]s.  [str_lower] and [str_split] model
      [str.lower] and [str.split] on ASCII text: bytes outside [A-Z] are
      left unchanged and only the ASCII whitespace separates.  What is
      proved about lower-cased text itself is stated for every lower-casing
      function with the properties [lower_laws].
    - A Python [dict] used as a map is a [gmap]; decoded JSON documents are
      values of the type [json].
    - Code that may raise returns a [result]; code that also talks to the
      network threads the log of the requests it has sent.
    - Console output ([print]) is not part of the model. *)

From Stdlib Require Import ZArith QArith Ascii String.
From stdpp Require Import gmap strings list fin_maps.

Open Scope string_scope.
Open Scope list_scope.

(** ** Python string primitives *)

Definition is_upper (c : ascii) : bool :=
  (65 <=? nat_of_ascii c)%nat && (nat_of_ascii c <=? 90)%nat.

Definition lower_char (c : ascii) : ascii :=
  if is_upper c then ascii_of_nat (nat_of_ascii c + 32) else c.

(** [s.lower()] *)
Fixpoint str_lower (s : string) : string :=
  match s with
  | EmptyString => EmptyString
  | String c s' => String (lower_char c) (str_lower s')
  end.

(** [s.replace(old, new)] for a non-empty [old] (every call of the source
    passes a non-empty literal): the occurrences of [old] are replaced from
    left to right, without overlap.  [skip] counts the characters of a
    matched occurrence that are still to be dropped. *)
Fixpoint replace_from (skip : nat) (old new s : string) : string :=
  match s with
  | EmptyString => EmptyString
  | String c s' =>
      match skip with
      | S k => replace_from k old new s'
      | O =>
          if String.prefix old s
          then new +:+ replace_from (String.length old - 1) old new s'
          else String c (replace_from 0 old new s')
      end
  end.

Definition str_replace (old new s : string) : string :=
  replace_from 0 old new s.

(** The characters on which [s.split()] separates: tab, line feed, vertical
    tab, form feed, carriage return, the four separators 28..31 and space. *)
Definition is_whitespace (c : ascii) : bool :=
  let n := nat_of_ascii c in
  ((9 <=? n)%nat && (n <=? 13)%nat) || ((28 <=? n)%nat && (n <=? 32)%nat).

Definition flush_word (word : string) (rest : list string) : list string :=
  match word with
  | EmptyString => rest
  | _ => word :: rest
  end.

(** [s.split()]: the maximal runs of non-whitespace characters, in order. *)
Fixpoint split_from (word s : string) : list string :=
  match s with
  | EmptyString => flush_word word []
  | String c s' =>
      if is_whitespace c
      then flush_word word (split_from EmptyString s')
      else split_from (word +:+ String c EmptyString) s'
  end.

Definition str_split (s : string) : list string := split_from EmptyString s.

(** [sep.join(l)] *)
Fixpoint str_join (sep : string) (l : list string) : string :=
  match l with
  | [] => EmptyString
  | [x] => x
  | x :: l' => x +:+ sep +:+ str_join sep l'
  end.

(** [sub in s] *)
Fixpoint str_contains (sub s : string) : bool :=
  String.prefix sub s ||
  match s with
  | EmptyString => false
  | String _ s' => str_contains sub s'
  end.

(** [s.startswith(p)] *)
Definition startswith (p s : string) : bool := String.prefix p s.

(** [s.endswith(p)] *)
Definition endswith (p s : string) : bool :=
  String.prefix (String.rev p) (String.rev s).

(** ** Exceptions, results and decoded JSON *)

Inductive exn : Type :=
| ConnectionError                 (* requests.exceptions.ConnectionError *)
| RequestError (msg : string)     (* any other failure of the HTTP call *)
| JSONDecodeError
| AttributeError
| TypeError
| KeyError (key : string)
| ValueError (msg : string)
| OSError (msg : string).

Inductive result (A : Type) : Type :=
| Ok (a : A)
| Raise (e : exn).
Arguments Ok {A} a.
Arguments Raise {A} e.

Definition bind {A B : Type} (r : result A) (k : A -> result B) : result B :=
  match r with
  | Ok a => k a
  | Raise e => Raise e
  end.

Notation "x <~ r ;; k" := (bind r (fun x => k))
  (at level 100, r at next level, right associativity, only parsing).

(** [try: body  except Exception: handler] *)
Definition try_except {A : Type} (body : result A) (handler : exn -> result A) : result A :=
  match body with
  | Ok a => Ok a
  | Raise e => handler e
  end.

(** What [json.load] and [response.json()] return.  Numbers are integers,
    the only numbers the documents of this program carry (years, counts). *)
#[warnings="-register-all"] Inductive json : Type :=
| JNull
| JBool (b : bool)
| JNum (z : Z)
| JStr (s : string)
| JArr (l : list json)
| JObj (d : list (string * json)).

Fixpoint assoc (key : string) (d : list (string * json)) : option json :=
  match d with
  | [] => None
  | (k, v) :: d' => if String.eqb k key then Some v else assoc key d'
  end.

(** [if v:] *)
Definition truthy (v : json) : bool :=
  match v with
  | JNull => false
  | JBool b => b
  | JNum z => negb (z =? 0)%Z
  | JStr s => negb (String.eqb s "")
  | JArr l => match l with [] => false | _ => true end
  | JObj d => match d with [] => false | _ => true end
  end.

(** [v.get(key, default)]: only a dict has the method. *)
Definition py_get (v : json) (key : string) (default : json) : result json :=
  match v with
  | JObj d => Ok (match assoc key d with Some x => x | None => default end)
  | _ => Raise AttributeError
  end.

(** [v[key]] with a string key. *)
Definition py_getitem (v : json) (key : string) : result json :=
  match v with
  | JObj d => match assoc key d with Some x => Ok x | None => Raise (KeyError key) end
  | _ => Raise TypeError
  end.

Fixpoint chars (s : string) : list json :=
  match s with
  | EmptyString => []
  | String c s' => JStr (String c EmptyString) :: chars s'
  end.

(** The items a [for] loop takes from [v]: the elements of a list, the keys
    of a dict, the characters of a string. *)
Definition py_iter (v : json) : result (list json) :=
  match v with
  | JArr l => Ok l
  | JObj d => Ok (map (fun kv => JStr (fst kv)) d)
  | JStr s => Ok (chars s)
  | _ => Raise TypeError
  end.

(** [len(v)] is defined on the same values, with the length of what
    [py_iter] enumerates. *)
Definition py_len (v : json) : result nat :=
  l <~ py_iter v ;; Ok (length l).

(** [v.lower()]: only a string has the method. *)
Definition py_lower (v : json) : result string :=
  match v with
  | JStr s => Ok (str_lower s)
  | _ => Raise AttributeError
  end.

(** ** prepare.py: the personal table *)

(** A cell of the columns [birthyear] / [deathyear]: missing ([NaN]), a
    number, or a value [int()] refuses. *)
Inductive cell : Type :=
| NA
| Num (z : Z)
| NotANumber (raw : string).

(** One row of [personal.csv]. *)
Record person : Type := {
  full_name : string;
  birthyear : cell;
  deathyear : cell;
  birthplace : option string
}.

(** ** prepare.py: [WomenInMathAdapter._build_text_mapping] *)

(** [self.text_dir.glob("*.txt")] over the names of a directory listing. *)
Definition glob_txt (listing : list string) : list string :=
  filter (fun f => endswith ".txt" f = true) listing.

(** Lines 55-77: the candidates as they are appended. *)
Definition raw_candidates (name : string) : list string :=
  let name_parts := str_split name in
  let candidates : list string := [] in
  let candidates :=
    if (2 <=? length name_parts)%nat then
      let lastname := str_lower (List.last name_parts "") in
      let firstnames := map str_lower (removelast name_parts) in
      let candidates := candidates ++ [lastname +:+ "_" +:+ str_join "_" firstnames] in
      if (1 <? length firstnames)%nat then
        (candidates ++ [lastname +:+ "_" +:+ List.last firstnames ""])
          ++ [lastname +:+ "_" +:+ hd "" firstnames]
      else candidates
    else candidates in
  let candidates :=
    if (2 <=? length name_parts)%nat then
      let firstname := str_lower (hd "" name_parts) in
      let lastname := str_lower (List.last name_parts "") in
      candidates ++ [firstname +:+ "_" +:+ lastname]
    else candidates in
  candidates ++
    [str_replace "," "" (str_replace "." "" (str_replace " " "_" (str_lower name)))].

(** Lines 80-83: the clean-up pass over every candidate. *)
Definition clean_candidate (c : string) : string :=
  str_replace "." "" (str_replace ")" "" (str_replace "(" "" c)).

Definition candidates (name : string) : list string :=
  map clean_candidate (raw_candidates name).

(** Line 89: the comparison key of a text file. *)
Definition stem (file_name : string) : string :=
  str_replace ".txt" "" (str_replace ".pdf.txt" "" file_name).

(** Lines 87-93: the inner loop, left at the first file whose key equals
    the candidate. *)
Fixpoint find_text_file (candidate : string) (text_files : list string) : option string :=
  match text_files with
  | [] => None
  | text_file :: rest =>
      if String.eqb (str_lower (stem text_file)) (str_lower candidate)
      then Some text_file
      else find_text_file candidate rest
  end.

(** Lines 86-96: the loop over the candidates of one person; [mapping] is
    the dict shared by all the persons. *)
Fixpoint match_candidates (name : string) (cands text_files : list string)
    (mapping : gmap string string) : gmap string string :=
  match cands with
  | [] => mapping
  | candidate :: rest =>
      let mapping' :=
        match find_text_file candidate text_files with
        | Some text_file => <[name := text_file]> mapping
        | None => mapping
        end in
      match mapping' !! name with
      | Some _ => mapping'
      | None => match_candidates name rest text_files mapping'
      end
  end.

Definition _build_text_mapping (personal : list person) (text_files : list string)
    : gmap string string :=
  foldl (fun mapping p =>
           match_candidates (full_name p) (candidates (full_name p)) text_files mapping)
        ∅ personal.

(** The comparison key as the comment of line 88 describes it: the file
    name without its extension [.pdf.txt] or [.txt]. *)
Definition drop_suffix (suffix s : string) : option string :=
  if endswith suffix s
  then Some (String.substring 0 (String.length s - String.length suffix) s)
  else None.

Definition stem_by_extension (file_name : string) : string :=
  match drop_suffix ".pdf.txt" file_name with
  | Some s => s
  | None =>
      match drop_suffix ".txt" file_name with
      | Some s => s
      | None => file_name
      end
  end.

(** The first file, in candidate order and then in listing order, that a
    candidate matches. *)
Fixpoint first_match (cands text_files : list string) : option string :=
  match cands with
  | [] => None
  | candidate :: rest =>
      match find_text_file candidate text_files with
      | Some text_file => Some text_file
      | None => first_match rest text_files
      end
  end.

(** ** prepare.py: entity resolution and the dataset builder *)

(** An HTTP response: its status code and what [response.json()] gives. *)
Record response : Type := {
  status_code : Z;
  response_json : result json
}.

(** The dict [map_entity] returns. *)
Record entity_mapping : Type := {
  entity_id : string;
  entity_ids : option (list string);
  confidence : Q
}.

Record biographical_data : Type := {
  birth_year : option Z;
  death_year : option Z;
  bio_birthplace : option string;
  field : string
}.

(** An element of the list [authors]. *)
Record author : Type := {
  author_entity_id : string;
  author_entity_ids : option (list string);
  entity_type : string;
  author_confidence : Q;
  name : string;
  biographical : biographical_data
}.

(** An element of the list [texts]. *)
Record text_item : Type := {
  text_entity_id : string;
  text : string
}.

(** The two lists [prepare] appends to. *)
Record outputs : Type := {
  authors : list author;
  texts : list text_item
}.

Record dataset : Type := {
  dataset_id : string;
  dataset_name : string;
  specification_version : string;
  description : string;
  dataset_authors : list author
}.

(** A file of the text directory when [get_text] looks at it. *)
Inductive file : Type :=
| NoFile                      (* [exists()] is false *)
| Readable (content : string) (* [read_text()] returns *)
| Unreadable (e : exn).       (* [read_text()] raises *)

(** The fields of a [WomenInMathAdapter] that the methods read. *)
Record adapter : Type := {
  personal : list person;
  text_files : gmap string string
}.

(** [__init__], given the rows of [personal.csv] and the names in the text
    directory. *)
Definition __init__ (rows : list person) (listing : list string) : adapter :=
  {| personal := rows;
     text_files := _build_text_mapping rows (glob_txt listing) |}.

(** Lines 169 and 173: the local identifier of a name. *)
Definition local_id (name : string) : string :=
  str_replace ")" "" (str_replace "(" "" (str_replace "," ""
    (str_replace "." "" (str_replace " " "_" (str_lower name))))).

(** [int(x) if pd.notna(x) else None] *)
Definition year_of (c : cell) : result (option Z) :=
  match c with
  | NA => Ok None
  | Num z => Ok (Some z)
  | NotANumber raw => Raise (ValueError ("invalid literal for int(): " +:+ raw))
  end.

(** What a run of the adapter meets outside itself: the Wikidata search
    called with a name ([requests.get] returns a response or raises), the
    entity validator, Python's formatting of the identifier a search result
    carries ([f"wikidata:{qid}"]) and the text directory. *)
Record world : Type := {
  wikidata : string -> result response;
  validate : string -> result bool;
  format_value : json -> string;
  text_dir : string -> file
}.

Section Adapter.

Variable w : world.

(** Lines 144-151: the loop over the search results. *)
Fixpoint scan_results (results : list json) : result (option json) :=
  match results with
  | [] => Ok None
  | r :: rest =>
      d <~ py_get r "description" (JStr "") ;;
      desc <~ py_lower d ;;
      if str_contains "mathematician" desc
      then qid <~ py_getitem r "id" ;; Ok (Some qid)
      else scan_results rest
  end.

(** Lines 125-151: the body of the [try]. *)
Definition lookup_wikidata_body (name : string) : result (option json) :=
  resp <~ wikidata w name ;;
  if negb (status_code resp =? 200)%Z then Ok None
  else
    data <~ response_json resp ;;
    found <~ py_get data "search" (JArr []) ;;
    results <~ py_iter found ;;
    scan_results results.

Definition lookup_wikidata (name : string) : result (option json) :=
  try_except (lookup_wikidata_body name) (fun _ => Ok None).

(** Lines 182-185. *)
Fixpoint validate_alternates (eids : list string) : result unit :=
  match eids with
  | [] => Ok tt
  | eid :: rest =>
      ok <~ validate w eid ;;
      if ok then validate_alternates rest
      else Raise (ValueError ("Invalid alternate entity_id: " +:+ eid))
  end.

Definition local_mapping (name : string) : entity_mapping :=
  {| entity_id := "local:women-in-math:" +:+ local_id name;
     entity_ids := None;
     confidence := 0.5 |}.

Definition wikidata_mapping (name : string) (qid : json) : entity_mapping :=
  {| entity_id := "wikidata:" +:+ format_value w qid;
     entity_ids := Some ["local:women-in-math:" +:+ local_id name];
     confidence := 0.8 |}.

Definition map_entity (p : person) : result entity_mapping :=
  let name := full_name p in
  wikidata_qid <~ lookup_wikidata name ;;
  let mapping :=
    match wikidata_qid with
    | Some qid => if truthy qid then wikidata_mapping name qid else local_mapping name
    | None => local_mapping name
    end in
  ok <~ validate w (entity_id mapping) ;;
  if negb ok then Raise (ValueError ("Invalid entity_id: " +:+ entity_id mapping))
  else
    _ <~ match entity_ids mapping with
         | Some (eid :: rest) => validate_alternates (eid :: rest)
         | _ => Ok tt
         end ;;
    Ok mapping.

Definition get_text (self : adapter) (name : string) : result (option string) :=
  match text_files self !! name with
  | Some text_file =>
      match text_dir w text_file with
      | NoFile => Ok None
      | Readable content => Ok (Some content)
      | Unreadable e => Raise e
      end
  | None => Ok None
  end.

(** Lines 218-230: the dict [author]. *)
Definition make_author (p : person) (mapping : entity_mapping) : result author :=
  birth <~ year_of (birthyear p) ;;
  death <~ year_of (deathyear p) ;;
  Ok {| author_entity_id := entity_id mapping;
        author_entity_ids := entity_ids mapping;
        entity_type := "person";
        author_confidence := confidence mapping;
        name := full_name p;
        biographical :=
          {| birth_year := birth;
             death_year := death;
             bio_birthplace := birthplace p;
             field := "wikidata:Q395" |} |}.

(** Lines 213-243: the body of the [try] for one record.  The two lists
    are mutated in place, so what has been appended when an exception is
    raised stays appended. *)
Definition process_record (self : adapter) (p : person) (out : outputs)
    : result unit * outputs :=
  match map_entity p with
  | Raise e => (Raise e, out)
  | Ok mapping =>
      match make_author p mapping with
      | Raise e => (Raise e, out)
      | Ok a =>
          let out1 := {| authors := authors out ++ [a]; texts := texts out |} in
          match get_text self (full_name p) with
          | Raise e => (Raise e, out1)
          | Ok None => (Ok tt, out1)
          | Ok (Some t) =>
              if negb (String.eqb t "")
              then (Ok tt,
                    {| authors := authors out1;
                       texts := texts out1
                                  ++ [{| text_entity_id := entity_id mapping; text := t |}] |})
              else (Ok tt, out1)
          end
      end
  end.

(** Lines 209-247: [except Exception: continue] discards the exception
    and goes on with the next record. *)
Definition prepare_loop (self : adapter) (rows : list person) (out : outputs) : outputs :=
  foldl (fun out p => snd (process_record self p out)) out rows.

Definition prepare (self : adapter) : dataset * list text_item :=
  let out := prepare_loop self (personal self) {| authors := []; texts := [] |} in
  ({| dataset_id := "women-in-math";
      dataset_name := "Women in Mathematics";
      specification_version := "0.0.1";
      description := "Biographical data of women mathematicians from 1800s-1900s";
      dataset_authors := authors out |},
   texts out).

End Adapter.

(** ** prepare.py: what [save] writes *)

Definition item_json (t : text_item) : json :=
  JObj [("entity_id", JStr (text_entity_id t)); ("text", JStr (text t))].

(** Line 271: [{"texts": texts}]. *)
Definition texts_document (items : list text_item) : json :=
  JObj [("texts", JArr (map item_json items))].

(** ** submit.py *)

(** A file of the output directory: missing, or there with what
    [open] and [json.load] make of it. *)
Inductive stored : Type :=
| Absent
| Stored (loaded : result json).

Record output_dir : Type := {
  dataset_file : stored;   (* output/dataset.json *)
  texts_file : stored      (* output/texts.json *)
}.

(** A call of [requests.post]. *)
Record request : Type := {
  url : string;
  payload : json
}.

(** [v[:50]] exists for strings and lists only; its value is only printed. *)
Definition py_slice (v : json) : result unit :=
  match v with
  | JStr _ | JArr _ => Ok tt
  | _ => Raise TypeError
  end.

Section Submitter.

(** [self.api_url], the output directory, and the remote service: what
    [requests.post] does with a request, given the requests sent before. *)
Variable api_url : string.
Variable out_dir : output_dir.
Variable server : list request -> request -> result response.

Definition metadata_url : string := api_url +:+ "/api/" +:+ "women-in-math".
Definition ingest_url : string := api_url +:+ "/api/" +:+ "women-in-math" +:+ "/ingest".

(** Every function takes the log of the requests sent so far and returns
    the extended log next to its result. *)
Definition submit_metadata (log : list request) : result bool * list request :=
  match dataset_file out_dir with
  | Absent => (Ok false, log)
  | Stored (Raise e) => (Raise e, log)
  | Stored (Ok dataset) =>
      let req := {| url := metadata_url; payload := dataset |} in
      (try_except
         (resp <~ server log req ;;
          if (status_code resp =? 200)%Z
          then
            result <~ response_json resp ;;
            _ <~ py_get result "authors" (JNum 0) ;;
            Ok true
          else Ok false)
         (fun e =>
            match e with
            | ConnectionError => Ok false
            | _ => Ok false
            end),
       log ++ [req])
  end.

Definition ingest_request (entity_id text : json) : request :=
  {| url := ingest_url;
     payload := JObj [("entity_id", entity_id); ("text", text)] |}.

(** Lines 89-110: the [try] of one item; [true] stands for
    [success_count += 1], [false] for [failed_count += 1]. *)
Definition ingest_attempt (log : list request) (req : request) : bool :=
  match (resp <~ server log req ;;
         if (status_code resp =? 200)%Z
         then
           result <~ response_json resp ;;
           _ <~ py_get result "ngrams_extracted" (JNum 0) ;;
           Ok true
         else Ok false)
  with
  | Ok counted => counted
  | Raise _ => false
  end.

(** Lines 83-110: the loop over [texts] with its two counters.  Lines
    84-87 are outside the [try]: what they raise leaves the loop. *)
Fixpoint ingest_loop (items : list json) (success_count failed_count : nat)
    (log : list request) : result (nat * nat) * list request :=
  match items with
  | [] => (Ok (success_count, failed_count), log)
  | text_data :: rest =>
      match (entity_id <~ py_getitem text_data "entity_id" ;;
             text <~ py_getitem text_data "text" ;;
             _ <~ py_slice entity_id ;;
             Ok (ingest_request entity_id text))
      with
      | Raise e => (Raise e, log)
      | Ok req =>
          if ingest_attempt log req
          then ingest_loop rest (S success_count) failed_count (log ++ [req])
          else ingest_loop rest success_count (S failed_count) (log ++ [req])
      end
  end.

Definition submit_texts (log : list request) : result nat * list request :=
  match texts_file out_dir with
  | Absent => (Ok 0, log)
  | Stored loaded =>
      match (data <~ loaded ;; py_get data "texts" (JArr [])) with
      | Raise e => (Raise e, log)
      | Ok texts =>
          if negb (truthy texts) then (Ok 0, log)
          else
            match (_ <~ py_len texts ;; py_iter texts) with
            | Raise e => (Raise e, log)
            | Ok items =>
                match ingest_loop items 0 0 log with
                | (Raise e, log') => (Raise e, log')
                | (Ok (success_count, _), log') => (Ok success_count, log')
                end
            end
      end
  end.

Definition submit_all (log : list request) : result unit * list request :=
  match submit_metadata log with
  | (Raise e, log') => (Raise e, log')
  | (Ok false, log') => (Ok tt, log')
  | (Ok true, log') =>
      match submit_texts log' with
      | (Raise e, log'') => (Raise e, log'')
      | (Ok ingested, log'') => (Ok tt, log'')
      end
  end.

End Submitter.

(** ** prepare.py: the summary [save] prints *)

(** [sum(1 for a in authors if a['entity_id'].startswith(prefix))] *)
Definition count_prefix (prefix : string) (l : list author) : nat :=
  length (List.filter (fun a => startswith prefix (author_entity_id a)) l).

(** Lines 280-281. *)
Definition wikidata_count (d : dataset) : nat := count_prefix "wikidata:" (dataset_authors d).
Definition local_count (d : dataset) : nat := count_prefix "local:" (dataset_authors d).

(** ** submit.py: [main] *)

(** The value a call leaves when its result is not used. *)
Definition discard {A : Type} (r : result A * list request) : result unit * list request :=
  (match fst r with
   | Ok _ => Ok tt
   | Raise e => Raise e
   end,
   snd r).

(** Lines 160-170, after the arguments are parsed: [--api-url],
    [--metadata-only] and [--texts-only]. *)
Definition main (api_url : string) (metadata_only texts_only : bool)
    (out_dir : output_dir) (server : list request -> request -> result response)
    (log : list request) : result unit * list request :=
  if metadata_only then discard (submit_metadata api_url out_dir server log)
  else if texts_only then discard (submit_texts api_url out_dir server log)
  else submit_all api_url out_dir server log.

(** ** The local identifier with [str.lower] as a parameter *)

(** Lines 169 and 173 after [name.lower()]: the five [replace] calls. *)
Definition slug_edits (s : string) : string :=
  str_replace ")" "" (str_replace "(" "" (str_replace "," ""
    (str_replace "." "" (str_replace " " "_" s)))).

(** Lines 169 and 173 for any lower-casing function; [local_id] is
    [local_id_with str_lower]. *)
Definition local_id_with (lower : string -> string) (name : string) : string :=
  slug_edits (lower name).

(** What the properties of the local identifier use of [str.lower], with a
    string read as encoded text in which the ASCII characters stand for
    themselves (UTF-8): lower-casing twice is lower-casing once, and a text
    that lower-casing leaves unchanged is still left unchanged after its
    spaces are replaced by underscores or its periods, commas or parentheses
    are deleted.  Python's [str.lower] maps each character on its own,
    except the capital sigma, which never occurs in a lower-cased text. *)
Record lower_laws (lower : string -> string) : Prop := {
  lower_lowered : forall s, lower (lower s) = lower s;
  lower_underscore : forall s,
    lower s = s -> lower (str_replace " " "_" s) = str_replace " " "_" s;
  lower_delete : forall (a : ascii) (s : string),
    In a ["."; ","; "("; ")"]%char ->
    lower s = s -> lower (str_replace (String a "") "" s) = str_replace (String a "") "" s
}.

(** ** The outcome of the ingestion requests, from the service's side *)

(** An answer is a success when its status is 200 and its body is a JSON
    object; any other answer, and a call that raises, is a failure. *)
Definition is_success (answer : result response) : bool :=
  match answer with
  | Ok resp =>
      (status_code resp =? 200)%Z
      && match response_json resp with
         | Ok (JObj _) => true
         | _ => false
         end
  | Raise _ => false
  end.

(** The outcomes of requests sent one after the other, each one answered
    by the service with the earlier ones in its log. *)
Fixpoint item_outcomes (server : list request -> request -> result response)
    (log : list request) (reqs : list request) : list bool :=
  match reqs with
  | [] => []
  | req :: rest => is_success (server log req) :: item_outcomes server (log ++ [req]) rest
  end.

(** The request the service is to receive for an item of the texts list: a
    POST to [{api_url}/api/women-in-math/ingest] with the two fields of the
    item. *)
Definition expected_request (api_url : string) (t : text_item) : request :=
  {| url := api_url +:+ "/api/women-in-math/ingest";
     payload := JObj [("entity_id", JStr (text_entity_id t)); ("text", JStr (text t))] |}.

Definition successes (outcomes : list bool) : nat :=
  length (List.filter (fun b => b) outcomes).

Definition failures (outcomes : list bool) : nat :=
  length (List.filter negb outcomes).

(** ** Character classes used to state the properties *)

Definition all_chars (P : ascii -> bool) (s : string) : bool :=
  forallb P (list_ascii_of_string s).

(** Neither an upper-case letter nor one of the characters the clean-up of
    the candidates removes. *)
Definition is_key_char (c : ascii) : bool :=
  negb (is_upper c) && negb (Ascii.eqb c "(") && negb (Ascii.eqb c ")")
  && negb (Ascii.eqb c ".").

(** None of the characters the local identifier replaces or removes. *)
Definition is_unpunctuated (c : ascii) : bool :=
  negb (Ascii.eqb c " ") && negb (Ascii.eqb c ".") && negb (Ascii.eqb c ",")
  && negb (Ascii.eqb c "(") && negb (Ascii.eqb c ")").

(** None of the characters the clean-up of the candidates removes. *)
Definition is_clean_char (c : ascii) : bool :=
  negb (Ascii.eqb c "(") && negb (Ascii.eqb c ")") && negb (Ascii.eqb c ".").

(** A search result that is an object whose description, when it has one,
    is a string that does not mention a mathematician. *)
Definition not_a_mathematician (r : json) : Prop :=
  exists d, py_get r "description" (JStr "") = Ok (JStr d)
            /\ str_contains "mathematician" (str_lower d) = false.

(** A response of the search with status 200 and the given results. *)
Definition search_response (results : list json) : response :=
  {| status_code := 200; response_json := Ok (JObj [("search", JArr results)]) |}.

(** ** Notions used to state the properties *)

(** The ways the Wikidata search ends without a match for [lookup_wikidata]:
    the call raises, the status is not 200, something raises while the
    response is read, or no result is described as a mathematician. *)
Inductive no_match (w : world) (name : string) : Prop :=
| network_error (e : exn) :
    wikidata w name = Raise e -> no_match w name
| bad_status (resp : response) :
    wikidata w name = Ok resp -> status_code resp <> 200%Z -> no_match w name
| raised_in_call (e : exn) :
    lookup_wikidata_body w name = Raise e -> no_match w name
| no_mathematician :
    lookup_wikidata_body w name = Ok None -> no_match w name.

Definition no_outputs : outputs := {| authors := []; texts := [] |}.

(** [out] after the elements of [more] have been appended to its lists. *)
Definition extend (out more : outputs) : outputs :=
  {| authors := authors out ++ authors more;
     texts := texts out ++ texts more |}.

(** The request [submit_texts] sends for an item of the texts list. *)
Definition request_of (api_url : string) (t : text_item) : request :=
  ingest_request api_url (JStr (text_entity_id t)) (JStr (text t)).

(** ** Sample collaborators and inputs *)

Definition offline : string -> result response :=
  fun _ => Raise ConnectionError.

Definition one_mathematician : string -> result response :=
  fun _ =>
    Ok {| status_code := 200;
          response_json :=
            Ok (JObj [("search",
                       JArr [JObj [("id", JStr "Q7259");
                                   ("description", JStr "English mathematician")]])]) |}.

Definition accept_all : string -> result bool := fun _ => Ok true.
Definition reject_all : string -> result bool := fun _ => Ok false.

(** [str()] on the identifiers of the samples, which are strings. *)
Definition format_string (v : json) : string :=
  match v with
  | JStr s => s
  | _ => ""
  end.

Definition ada : person :=
  {| full_name := "Ada Lovelace";
     birthyear := Num 1815;
     deathyear := Num 1852;
     birthplace := Some "London" |}.

Definition emmy : person :=
  {| full_name := "Emmy Noether";
     birthyear := Num 1882;
     deathyear := NotANumber "c. 1935";
     birthplace := None |}.

(** A text directory whose only file cannot be read. *)
Definition locked_dir : string -> file :=
  fun f =>
    if String.eqb f "lovelace_ada.txt"
    then Unreadable (OSError "Permission denied")
    else NoFile.

Definition ada_adapter : adapter := __init__ [ada] ["lovelace_ada.txt"].

(** The search is down; the validator accepts, or rejects, everything. *)
Definition offline_world : world :=
  {| wikidata := offline; validate := accept_all;
     format_value := format_string; text_dir := locked_dir |}.

Definition strict_world : world :=
  {| wikidata := offline; validate := reject_all;
     format_value := format_string; text_dir := locked_dir |}.

(** The search answers with one mathematician. *)
Definition online_world : world :=
  {| wikidata := one_mathematician; validate := accept_all;
     format_value := format_string; text_dir := locked_dir |}.

Definition ada_author : author :=
  {| author_entity_id := "local:women-in-math:ada_lovelace";
     author_entity_ids := None;
     entity_type := "person";
     author_confidence := 0.5;
     name := "Ada Lovelace";
     biographical :=
       {| birth_year := Some 1815%Z;
          death_year := Some 1852%Z;
          bio_birthplace := Some "London";
          field := "wikidata:Q395" |} |}.

(** The default [api_url] of [WomenInMathSubmitter]. *)
Definition localhost : string := "http://localhost:8000".

Definition sample_items : list text_item :=
  [ {| text_entity_id := "local:women-in-math:ada_lovelace"; text := "Ada" |};
    {| text_entity_id := "wikidata:Q7099"; text := "Emmy" |} ].

Definition sample_dir (loaded_texts : stored) : output_dir :=
  {| dataset_file := Stored (Ok (JObj [("dataset_id", JStr "women-in-math")]));
     texts_file := loaded_texts |}.

(** A service that answers every request with status 500. *)
Definition failing_server : list request -> request -> result response :=
  fun _ _ => Ok {| status_code := 500; response_json := Raise JSONDecodeError |}.

(** A service that accepts the metadata, then fails on the first ingestion
    and accepts the later ones. *)
Definition flaky_server : list request -> request -> result response :=
  fun log _ =>
    match log with
    | [_] => Raise ConnectionError
    | _ => Ok {| status_code := 200; response_json := Ok (JObj []) |}
    end.

(** A search that lists a painter before a mathematician. *)
Definition painter_first : list json :=
  [JObj [("id", JStr "Q1"); ("description", JStr "French painter")];
   JObj [("id", JStr "Q7259"); ("description", JStr "English Mathematician and writer")]].

Definition painter_first_world : world :=
  {| wikidata := fun _ => Ok (search_response painter_first);
     validate := accept_all;
     format_value := format_string;
     text_dir := fun _ => NoFile |}.

(** A search whose first result is not an object. *)
Definition broken_first_world : world :=
  {| wikidata := fun _ => Ok (search_response (JNull :: painter_first));
     validate := accept_all;
     format_value := format_string;
     text_dir := fun _ => NoFile |}.

(** A text directory in which Ada's file can be read. *)
Definition open_world : world :=
  {| wikidata := offline;
     validate := accept_all;
     format_value := format_string;
     text_dir := fun f => if String.eqb f "lovelace_ada.txt" then Readable "Ada" else NoFile |}.

(** A service that accepts every request. *)
Definition accepting_server : list request -> request -> result response :=
  fun _ _ => Ok {| status_code := 200; response_json := Ok (JObj []) |}.

(** A search whose mathematician carries an empty identifier. *)
Definition empty_id_world : world :=
  {| wikidata := fun _ =>
       Ok (search_response
             [JObj [("id", JStr ""); ("description", JStr "mathematician")]]);
     validate := accept_all;
     format_value := format_string;
     text_dir := fun _ => NoFile |}.

Definition sister_mary : person :=
  {| full_name := "Sister Mary Nicholas Arnoldy";
     birthyear := NA;
     deathyear := NA;
     birthplace := None |}.

(** * Properties *)

(** ** The string primitives on sample inputs *)

Example lower_ex : str_lower "Rachel Adams" = "rachel adams".
Proof. reflexivity. Qed.
Example replace_ex1 : str_replace ".pdf.txt" "" "adams_rachel.pdf.txt" = "adams_rachel".
Proof. reflexivity. Qed.
Example replace_ex2 : str_replace "aa" "b" "aaaaa" = "bba".
Proof. reflexivity. Qed.
Example split_ex :
  str_split "  Sister Mary   Nicholas Arnoldy " = ["Sister"; "Mary"; "Nicholas"; "Arnoldy"].
Proof. reflexivity. Qed.
Example join_ex : str_join "_" ["a"; "b"; "c"] = "a_b_c".
Proof. reflexivity. Qed.
Example candidates_ex1 :
  candidates "Rachel Adams" = ["adams_rachel"; "rachel_adams"; "rachel_adams"].
Proof. reflexivity. Qed.
Example candidates_ex2 :
  candidates "Sister Mary Nicholas Arnoldy"
  = ["arnoldy_sister_mary_nicholas"; "arnoldy_nicholas"; "arnoldy_sister";
     "sister_arnoldy"; "sister_mary_nicholas_arnoldy"].
Proof. reflexivity. Qed.
Example candidates_ex3 : candidates "Hypatia" = ["hypatia"].
Proof. reflexivity. Qed.
Example stem_ex1 : stem "adams_rachel.pdf.txt" = "adams_rachel".
Proof. reflexivity. Qed.
Example stem_ex2 : stem_by_extension "adams_rachel.pdf.txt" = "adams_rachel".
Proof. reflexivity. Qed.
Example stem_ex3 : stem_by_extension "notes.txt.old.txt" = "notes.txt.old".
Proof. reflexivity. Qed.
Example stem_ex4 : stem "notes.txt.old.txt" = "notes.old".
Proof. reflexivity. Qed.
Example glob_ex : glob_txt ["a.txt"; "b.pdf"; "c.pdf.txt"] = ["a.txt"; "c.pdf.txt"].
Proof. reflexivity. Qed.

(** ** Replacing one character *)

Lemma prefix_empty (s : string) : String.prefix "" s = true.
Proof. by destruct s. Qed.

Lemma string_app_cons (c : ascii) (s1 s2 : string) :
  String c s1 +:+ s2 = String c (s1 +:+ s2).
Proof. reflexivity. Qed.

Lemma prefix_of_app (p s : string) : startswith p (p +:+ s) = true.
Proof.
  unfold startswith. induction p as [|c p IH]; [apply prefix_empty |].
  rewrite string_app_cons. cbn [String.prefix].
  by destruct (ascii_dec c c).
Qed.

(** [str_replace] scans from the left: an occurrence of [old] at the front
    is replaced and the scan resumes after it; otherwise the first character
    is kept. *)
Lemma replace_from_skip (old new t rest : string) :
  replace_from (String.length t) old new (t +:+ rest) = replace_from 0 old new rest.
Proof.
  induction t as [|c t IH]; [done |].
  rewrite string_app_cons. cbn [String.length replace_from]. apply IH.
Qed.

Lemma str_replace_match (c : ascii) (old new rest : string) :
  str_replace (String c old) new (String c old +:+ rest)
  = new +:+ str_replace (String c old) new rest.
Proof.
  unfold str_replace.
  pose proof (prefix_of_app (String c old) rest) as Hprefix. unfold startswith in Hprefix.
  rewrite string_app_cons in *. cbn [replace_from]. rewrite Hprefix.
  cbn [String.length]. rewrite Nat.sub_1_r. cbn [Nat.pred].
  by rewrite replace_from_skip.
Qed.

Lemma str_replace_keep (c : ascii) (old new s : string) :
  String.prefix old (String c s) = false ->
  str_replace old new (String c s) = String c (str_replace old new s).
Proof. unfold str_replace. cbn [replace_from]. by intros ->. Qed.

Lemma replace_char_cons (a c : ascii) (new s : string) :
  str_replace (String a "") new (String c s)
  = (if Ascii.eqb a c then new else String c "") +:+ str_replace (String a "") new s.
Proof.
  unfold str_replace. cbn [replace_from String.prefix String.length Nat.sub].
  destruct (ascii_dec a c) as [->|Hne].
  - by rewrite prefix_empty, Ascii.eqb_refl.
  - apply Ascii.eqb_neq in Hne. by rewrite Hne.
Qed.

Lemma string_app_assoc (s1 s2 s3 : string) : (s1 +:+ s2) +:+ s3 = s1 +:+ (s2 +:+ s3).
Proof. induction s1 as [|c s1 IH]; [done |]. by rewrite !string_app_cons, IH. Qed.

Lemma replace_char_app (a : ascii) (new s1 s2 : string) :
  str_replace (String a "") new (s1 +:+ s2)
  = str_replace (String a "") new s1 +:+ str_replace (String a "") new s2.
Proof.
  induction s1 as [|c s1 IH]; [done |].
  by rewrite string_app_cons, !replace_char_cons, IH, string_app_assoc.
Qed.

Lemma str_lower_app (s1 s2 : string) :
  str_lower (s1 +:+ s2) = str_lower s1 +:+ str_lower s2.
Proof.
  induction s1 as [|c s1 IH]; [done |].
  rewrite string_app_cons. cbn [str_lower]. by rewrite string_app_cons, IH.
Qed.

(** The local identifier is computed character by character. *)
Lemma local_id_app (s1 s2 : string) :
  local_id (s1 +:+ s2) = local_id s1 +:+ local_id s2.
Proof.
  unfold local_id. by rewrite str_lower_app, !replace_char_app.
Qed.

Lemma local_id_unfold (name : string) : local_id name = local_id_with str_lower name.
Proof. reflexivity. Qed.

Lemma slug_edits_app (s1 s2 : string) :
  slug_edits (s1 +:+ s2) = slug_edits s1 +:+ slug_edits s2.
Proof. unfold slug_edits. by rewrite !replace_char_app. Qed.

Lemma slug_edits_char_idem (c : ascii) :
  slug_edits (slug_edits (String c "")) = slug_edits (String c "").
Proof. destruct c as [[] [] [] [] [] [] [] []]; vm_compute; reflexivity. Qed.

(** The five replacements, applied to any text, leave nothing for a second
    application to change. *)
Lemma slug_edits_idem (s : string) : slug_edits (slug_edits s) = slug_edits s.
Proof.
  induction s as [|c s IH]; [done |].
  change (String c s) with (String c "" +:+ s).
  by rewrite !slug_edits_app, slug_edits_char_idem, IH.
Qed.

(** A lower-cased text is still lower-cased after the five replacements. *)
Lemma slug_edits_lowered (lower : string -> string) (s : string) :
  lower_laws lower -> lower s = s -> lower (slug_edits s) = slug_edits s.
Proof.
  intros Hlaws Hs. unfold slug_edits.
  apply (lower_delete lower Hlaws ")"); [simpl; tauto |].
  apply (lower_delete lower Hlaws "("); [simpl; tauto |].
  apply (lower_delete lower Hlaws ","); [simpl; tauto |].
  apply (lower_delete lower Hlaws "."); [simpl; tauto |].
  by apply (lower_underscore lower Hlaws).
Qed.

Lemma lower_char_idem (c : ascii) : lower_char (lower_char c) = lower_char c.
Proof. destruct c as [[] [] [] [] [] [] [] []]; reflexivity. Qed.

Lemma str_lower_idem (s : string) : str_lower (str_lower s) = str_lower s.
Proof.
  induction s as [|c s IH]; [done |].
  cbn [str_lower]. by rewrite lower_char_idem, IH.
Qed.

Lemma str_lower_keeps_edit (a : ascii) (new s : string) :
  str_lower new = new -> str_lower s = s ->
  str_lower (str_replace (String a "") new s) = str_replace (String a "") new s.
Proof.
  intros Hnew. induction s as [|c s IH]; [done |].
  cbn [str_lower]. intros [= Hc Hs].
  rewrite replace_char_cons, str_lower_app, (IH Hs).
  destruct (Ascii.eqb a c); [by rewrite Hnew |].
  cbn [str_lower]. by rewrite Hc.
Qed.

(** The lower-casing of ASCII text has the three properties. *)
Lemma str_lower_laws : lower_laws str_lower.
Proof.
  split.
  - apply str_lower_idem.
  - intros s Hs. by apply str_lower_keeps_edit.
  - intros a s _ Hs. by apply str_lower_keeps_edit.
Qed.

(** C7: the local slug (lower case, spaces to underscores, periods, commas
    and parentheses removed) is idempotent: slugifying a slug gives the
    same string.  This holds for every string and every lower-casing
    function with the three properties of [lower_laws], the lower-casing of
    ASCII text among them. *)
Theorem local_id_idempotent (lower : string -> string) (s : string) :
  lower_laws lower ->
  local_id_with lower (local_id_with lower s) = local_id_with lower s.
Proof.
  intros Hlaws. unfold local_id_with.
  rewrite (slug_edits_lowered lower (lower s) Hlaws (lower_lowered lower Hlaws s)).
  apply slug_edits_idem.
Qed.

Lemma local_id_idempotent_witness :
  lower_laws str_lower
  /\ local_id_with str_lower (local_id_with str_lower "Dr. Mary (Polly) Smith, Jr.")
     = local_id_with str_lower "Dr. Mary (Polly) Smith, Jr.".
Proof.
  split; [exact str_lower_laws |].
  exact (local_id_idempotent str_lower "Dr. Mary (Polly) Smith, Jr." str_lower_laws).
Defined.

(** ** The comparison key of a text file *)

Lemma string_app_empty (s : string) : s +:+ "" = s.
Proof. induction s as [|c s IH]; [done |]. by rewrite string_app_cons, IH. Qed.

Lemma replace_without_dot (old new base rest : string) :
  Forall (fun c => c <> "."%char) (list_ascii_of_string base) ->
  str_replace (String "." old) new (base +:+ rest)
  = base +:+ str_replace (String "." old) new rest.
Proof.
  induction base as [|c base IH]; [done |].
  intros Hdots. apply Forall_cons in Hdots as [Hc Hdots].
  rewrite !string_app_cons. unfold str_replace in *.
  cbn [replace_from String.prefix].
  destruct (ascii_dec "." c) as [<-|_]; [done |].
  by rewrite IH.
Qed.

(** On the names the docstring gives as the pattern (no period before the
    extension) the key is the name without its extension. *)
Lemma stem_of_plain_name (base : string) :
  Forall (fun c => c <> "."%char) (list_ascii_of_string base) ->
  stem (base +:+ ".pdf.txt") = base /\ stem (base +:+ ".txt") = base.
Proof.
  intros Hdots. unfold stem. split.
  - rewrite (replace_without_dot "pdf.txt" "" base ".pdf.txt" Hdots).
    change (str_replace ".pdf.txt" "" ".pdf.txt") with "".
    rewrite (replace_without_dot "txt" "" base "" Hdots).
    apply string_app_empty.
  - rewrite (replace_without_dot "pdf.txt" "" base ".txt" Hdots).
    change (str_replace ".pdf.txt" "" ".txt") with ".txt".
    rewrite (replace_without_dot "txt" "" base ".txt" Hdots).
    apply string_app_empty.
Qed.

(** C2: the key the matcher computes for the file [notes.txt.old.txt] (a
    name [glob("*.txt")] lists) is [notes.old]: the inner [.txt] is removed
    as well, whereas removing the trailing extension only, as the specification
    and the comment of the source say, leaves [notes.txt.old]. *)
Theorem stem_removes_inner_occurrences :
  glob_txt ["notes.txt.old.txt"] = ["notes.txt.old.txt"]
  /\ stem "notes.txt.old.txt" = "notes.old"
  /\ stem_by_extension "notes.txt.old.txt" = "notes.txt.old"
  /\ stem "notes.txt.old.txt" <> stem_by_extension "notes.txt.old.txt".
Proof. repeat split; done. Qed.

(** ** The name matcher *)

Lemma match_candidates_other (name n : string) (cands files : list string)
    (m : gmap string string) :
  n <> name -> match_candidates name cands files m !! n = m !! n.
Proof.
  intros Hne. revert m.
  induction cands as [|c cands IH]; intros m; [done |].
  cbn [match_candidates].
  destruct (find_text_file c files) as [f|].
  - rewrite lookup_insert_eq. by rewrite lookup_insert_ne.
  - destruct (m !! name); [done | apply IH].
Qed.

Lemma match_candidates_fresh (name : string) (cands files : list string)
    (m : gmap string string) :
  m !! name = None ->
  match_candidates name cands files m !! name = first_match cands files.
Proof.
  intros Hm.
  induction cands as [|c cands IH]; [done |].
  cbn [match_candidates first_match].
  destruct (find_text_file c files) as [f|].
  - rewrite lookup_insert_eq. apply lookup_insert_eq.
  - by rewrite Hm.
Qed.

Lemma match_candidates_again (name f : string) (cands files : list string)
    (m : gmap string string) :
  m !! name = Some f ->
  first_match cands files = Some f ->
  match_candidates name cands files m !! name = Some f.
Proof.
  intros Hm Hf.
  destruct cands as [|c cands]; [done |].
  cbn [match_candidates first_match] in *.
  destruct (find_text_file c files) as [f'|].
  - rewrite lookup_insert_eq. rewrite lookup_insert_eq. done.
  - by rewrite Hm.
Qed.

(** The two nested loops and their [break]s compute, for every name of the
    table, the first match in candidate order and then in listing order. *)
Lemma build_text_mapping_lookup (rows : list person) (files : list string) (n : string) :
  _build_text_mapping rows files !! n
  = if decide (n ∈ map full_name rows) then first_match (candidates n) files else None.
Proof.
  unfold _build_text_mapping.
  assert (Hgen : forall m : gmap string string,
    (forall k f, m !! k = Some f -> first_match (candidates k) files = Some f) ->
    foldl (fun mapping p =>
             match_candidates (full_name p) (candidates (full_name p)) files mapping)
          m rows !! n
    = if decide (n ∈ map full_name rows)
      then first_match (candidates n) files else m !! n).
  { induction rows as [|p rows IH]; intros m Hinv; [done |].
    cbn [foldl map]. rewrite IH.
    - destruct (decide (n = full_name p)) as [->|Hne].
      + rewrite (decide_True (P := _ ∈ _ :: _)) by apply list_elem_of_here.
        destruct (m !! full_name p) as [f|] eqn:Hm.
        * rewrite (match_candidates_again _ f) by eauto.
          rewrite (Hinv _ _ Hm). by destruct (decide _).
        * rewrite match_candidates_fresh by done. by destruct (decide _).
      + rewrite match_candidates_other by done.
        destruct (decide (n ∈ map full_name rows)) as [Hin|Hnin].
        * rewrite decide_True; [done | by apply list_elem_of_further].
        * rewrite decide_False; [done |].
          intros [?|?]%elem_of_cons; done.
    - intros k f.
      destruct (decide (k = full_name p)) as [->|Hne].
      + destruct (m !! full_name p) as [f0|] eqn:Hm.
        * rewrite (match_candidates_again _ f0) by eauto.
          intros [= <-]. eauto.
        * rewrite match_candidates_fresh by done. done.
      + rewrite match_candidates_other by done. apply Hinv. }
  rewrite Hgen; [| intros k f; by rewrite lookup_empty].
  destruct (decide _); [done | apply lookup_empty].
Qed.

Lemma last_map_lower (l : list string) (d : string) :
  l <> [] -> List.last (map str_lower l) "" = str_lower (List.last l d).
Proof.
  induction l as [|x l IH]; [done |]; intros _.
  destruct l as [|y l]; [done |].
  change (List.last (map str_lower (y :: l)) "" = str_lower (List.last (y :: l) d)).
  by apply IH.
Qed.

Lemma split_at_surname (parts : list string) :
  (2 <= length parts)%nat ->
  exists g0 gs surname, parts = (g0 :: gs) ++ [surname].
Proof.
  intros Hlen.
  destruct parts as [|g0 rest]; [simpl in Hlen; lia |].
  destruct (exists_last (l := rest)) as (gs & surname & ->).
  { destruct rest; [simpl in Hlen; lia | done]. }
  by exists g0, gs, surname.
Qed.

(** ** The entity resolver *)

Section ResolverProperties.

Variable w : world.

(** [lookup_wikidata] catches whatever its body raises. *)
Lemma lookup_wikidata_returns (name : string) :
  exists r, lookup_wikidata w name = Ok r.
Proof.
  unfold lookup_wikidata.
  destruct (lookup_wikidata_body w name) as [r|e]; simpl; eauto.
Qed.

Lemma no_match_lookup (name : string) :
  no_match w name -> lookup_wikidata w name = Ok None.
Proof.
  unfold lookup_wikidata, lookup_wikidata_body.
  intros [e He | resp Hresp Hstatus | e He | Hnone].
  - by rewrite He.
  - rewrite Hresp. simpl.
    destruct (status_code resp =? 200)%Z eqn:Heq; [| done].
    by apply Z.eqb_eq in Heq.
  - unfold lookup_wikidata_body in He. by rewrite He.
  - unfold lookup_wikidata_body in Hnone. by rewrite Hnone.
Qed.

(** A mapping that [map_entity] returns is one of the two it builds. *)
Lemma map_entity_returns (p : person) (m : entity_mapping) :
  map_entity w p = Ok m ->
  m = local_mapping (full_name p)
  \/ exists qid, m = wikidata_mapping w (full_name p) qid.
Proof.
  unfold map_entity.
  destruct (lookup_wikidata w (full_name p)) as [r|e]; [| done].
  cbn [bind].
  set (mapping := match r with
                  | Some qid =>
                      if truthy qid
                      then wikidata_mapping w (full_name p) qid
                      else local_mapping (full_name p)
                  | None => local_mapping (full_name p)
                  end).
  assert (Hm : mapping = local_mapping (full_name p)
               \/ exists qid, mapping = wikidata_mapping w (full_name p) qid).
  { subst mapping. destruct r as [qid|]; [destruct (truthy qid) |]; eauto. }
  destruct (validate w (entity_id mapping)) as [[|]|e]; [| done | done].
  cbn [bind negb].
  destruct (match entity_ids mapping with
            | Some (eid :: rest) => validate_alternates w (eid :: rest)
            | _ => Ok tt
            end); [| done].
  cbn [bind]. by intros [= <-].
Qed.

(** C3: whenever [map_entity] returns, whatever the search and the
    validator did, the confidence is 0.5 or 0.8, the entity_id starts with
    exactly one of [wikidata:] and [local:], and the confidence is 0.8
    exactly when the prefix is [wikidata:]. *)
Theorem map_entity_confidence_prefix (p : person) (m : entity_mapping) :
  map_entity w p = Ok m ->
  (confidence m = 0.5%Q \/ confidence m = 0.8%Q)
  /\ (startswith "wikidata:" (entity_id m) = true
        /\ startswith "local:" (entity_id m) = false
      \/ startswith "wikidata:" (entity_id m) = false
        /\ startswith "local:" (entity_id m) = true)
  /\ (confidence m = 0.8%Q <-> startswith "wikidata:" (entity_id m) = true).
Proof.
  intros [-> | [qid ->]]%map_entity_returns.
  - cbn [local_mapping confidence entity_id].
    split; [by left |]. split; [right; split; reflexivity |].
    split; [intros [=] | intros [=]].
  - cbn [wikidata_mapping confidence entity_id].
    split; [by right |]. split; [left; split; [apply prefix_of_app | reflexivity] |].
    split; [intros _; apply prefix_of_app | done].
Qed.

(** C4, amended: when the search yields no match (network error, status
    other than 200, an exception while the response is read, or no
    mathematician among the results) the lookup returns [None] without
    raising, and the resolver builds entity_id = "local:women-in-math:" +
    slug, confidence 0.5, entity_ids = None; it returns this mapping when
    the validator accepts the entity_id, and raises instead when the
    validator rejects it or fails. *)
Theorem map_entity_no_match (p : person) :
  no_match w (full_name p) ->
  lookup_wikidata w (full_name p) = Ok None
  /\ local_mapping (full_name p)
     = {| entity_id := "local:women-in-math:" +:+ local_id (full_name p);
          entity_ids := None;
          confidence := 0.5%Q |}
  /\ map_entity w p
     = match validate w ("local:women-in-math:" +:+ local_id (full_name p)) with
       | Ok true => Ok (local_mapping (full_name p))
       | Ok false =>
           Raise (ValueError ("Invalid entity_id: "
                                +:+ "local:women-in-math:" +:+ local_id (full_name p)))
       | Raise e => Raise e
       end.
Proof.
  intros Hno%no_match_lookup. split; [done |]. split; [done |].
  unfold map_entity. rewrite Hno. cbn [bind local_mapping entity_id entity_ids].
  by destruct (validate w _) as [[|]|e].
Qed.

End ResolverProperties.

Lemma map_entity_confidence_prefix_witness :
  map_entity online_world ada
  = Ok (wikidata_mapping online_world "Ada Lovelace" (JStr "Q7259"))
  /\ confidence (wikidata_mapping online_world "Ada Lovelace" (JStr "Q7259")) = 0.8%Q
  /\ startswith "wikidata:"
       (entity_id (wikidata_mapping online_world "Ada Lovelace" (JStr "Q7259"))) = true.
Proof.
  assert (H : map_entity online_world ada
              = Ok (wikidata_mapping online_world "Ada Lovelace" (JStr "Q7259")))
    by reflexivity.
  split; [exact H |].
  pose proof (map_entity_confidence_prefix _ _ _ H) as (_ & _ & Hiff).
  split; [reflexivity | apply Hiff; reflexivity].
Defined.

(** C4 as stated fails: the search is down, so there is no match, but the
    validator rejects the local identifier and the resolver raises instead
    of returning the local mapping. *)
Lemma map_entity_no_match_rejected :
  no_match strict_world (full_name ada)
  /\ lookup_wikidata strict_world (full_name ada) = Ok None
  /\ map_entity strict_world ada
     = Raise (ValueError "Invalid entity_id: local:women-in-math:ada_lovelace")
  /\ map_entity strict_world ada
     <> Ok {| entity_id := "local:women-in-math:ada_lovelace";
              entity_ids := None;
              confidence := 0.5%Q |}.
Proof.
  split; [by apply (network_error _ _ ConnectionError) |].
  repeat split; done.
Qed.

Lemma map_entity_no_match_witness :
  no_match offline_world (full_name ada)
  /\ map_entity offline_world ada
     = Ok {| entity_id := "local:women-in-math:ada_lovelace";
             entity_ids := None;
             confidence := 0.5%Q |}.
Proof.
  assert (H : no_match offline_world (full_name ada))
    by (apply (network_error _ _ ConnectionError); reflexivity).
  split; [exact H |].
  exact (proj2 (proj2 (map_entity_no_match offline_world ada H))).
Defined.

(** ** The dataset builder *)

Lemma extend_no_outputs (out : outputs) : extend out no_outputs = out.
Proof. destruct out as [a t]. unfold extend. simpl. by rewrite !app_nil_r. Qed.

Lemma extend_assoc (o1 o2 o3 : outputs) :
  extend (extend o1 o2) o3 = extend o1 (extend o2 o3).
Proof. unfold extend. simpl. by rewrite !app_assoc. Qed.

Section BuilderProperties.

Variable w : world.

(** A record only appends: what it adds, and whether it raises, does not
    depend on what the lists already hold. *)
Lemma process_record_extend (self : adapter) (p : person) (out : outputs) :
  process_record w self p out
  = (fst (process_record w self p no_outputs),
     extend out (snd (process_record w self p no_outputs))).
Proof.
  unfold process_record.
  destruct (map_entity w p) as [m|e]; [| by rewrite extend_no_outputs].
  destruct (make_author p m) as [a|e]; [| by rewrite extend_no_outputs].
  destruct (get_text w self (full_name p)) as [[t|]|e];
    [destruct (negb (String.eqb t "")) | |];
    unfold extend; simpl; by rewrite ?app_nil_r.
Qed.

Lemma prepare_loop_extend (self : adapter) (rows : list person) (out : outputs) :
  prepare_loop w self rows out = extend out (prepare_loop w self rows no_outputs).
Proof.
  unfold prepare_loop.
  revert out. induction rows as [|p rows IH]; intros out.
  - by rewrite extend_no_outputs.
  - cbn [foldl]. rewrite IH.
    rewrite (IH (snd (process_record w self p no_outputs))).
    rewrite process_record_extend. cbn [snd]. by rewrite extend_assoc.
Qed.

Lemma prepare_loop_cons (self : adapter) (p : person) (rows : list person)
    (out : outputs) :
  prepare_loop w self (p :: rows) out
  = prepare_loop w self rows (snd (process_record w self p out)).
Proof. reflexivity. Qed.

Lemma prepare_loop_app (self : adapter) (rows1 rows2 : list person) (out : outputs) :
  prepare_loop w self (rows1 ++ rows2) out
  = prepare_loop w self rows2 (prepare_loop w self rows1 out).
Proof. apply foldl_app. Qed.

Lemma prepare_loop_text_files (a1 a2 : adapter) (rows : list person) (out : outputs) :
  text_files a1 = text_files a2 ->
  prepare_loop w a1 rows out = prepare_loop w a2 rows out.
Proof.
  destruct a1 as [r1 t1], a2 as [r2 t2]. simpl. by intros ->.
Qed.

(** An exception leaves the texts list as it was. *)
Lemma raise_adds_no_text (self : adapter) (p : person) (e : exn) :
  fst (process_record w self p no_outputs) = Raise e ->
  texts (snd (process_record w self p no_outputs)) = [].
Proof.
  unfold process_record.
  destruct (map_entity w p) as [m|e1]; [| done].
  destruct (make_author p m) as [a|e1]; [| done].
  destruct (get_text w self (full_name p)) as [[t|]|e1];
    [destruct (negb (String.eqb t "")) | |]; done.
Qed.

(** An exception of the resolver, or of the construction of the author
    record, leaves both lists as they were. *)
Lemma early_raise_adds_nothing (self : adapter) (p : person) (e : exn) :
  map_entity w p = Raise e
  \/ (exists m, map_entity w p = Ok m /\ make_author p m = Raise e) ->
  process_record w self p no_outputs = (Raise e, no_outputs).
Proof.
  unfold process_record.
  intros [-> | (m & -> & ->)]; done.
Qed.

(** C1, amended: a record whose processing raises adds nothing to the
    texts list, and the records after it are processed as usual; when the
    exception comes from the entity resolution (validation included) or
    from the construction of the author record, the record adds nothing to
    the authors list either: the two documents are those of the table
    without that record. *)
Theorem prepare_skips_failed_record (self : adapter) (before after : list person)
    (p : person) (e : exn) :
  fst (process_record w self p no_outputs) = Raise e ->
  snd (prepare w {| personal := before ++ p :: after; text_files := text_files self |})
  = snd (prepare w {| personal := before ++ after; text_files := text_files self |})
  /\ (map_entity w p = Raise e
      \/ (exists m, map_entity w p = Ok m /\ make_author p m = Raise e) ->
      prepare w {| personal := before ++ p :: after; text_files := text_files self |}
      = prepare w {| personal := before ++ after; text_files := text_files self |}).
Proof.
  intros Hraise.
  unfold prepare. cbn [personal snd]. fold no_outputs.
  set (with_p := {| personal := before ++ p :: after; text_files := text_files self |}).
  set (without_p := {| personal := before ++ after; text_files := text_files self |}).
  rewrite (prepare_loop_text_files with_p self) by done.
  rewrite (prepare_loop_text_files without_p self) by done.
  rewrite !prepare_loop_app, prepare_loop_cons.
  rewrite (prepare_loop_extend self after (snd _)).
  rewrite (prepare_loop_extend self after (prepare_loop w self before no_outputs)).
  rewrite process_record_extend. cbn [snd].
  split.
  - unfold extend. cbn [texts].
    by rewrite (raise_adds_no_text self p e Hraise), app_nil_r.
  - intros Hearly%(early_raise_adds_nothing self).
    rewrite Hearly. cbn [snd]. by rewrite extend_no_outputs.
Qed.

End BuilderProperties.

(** C1 as stated fails: reading the matched text file of this record raises
    after its author record has been appended, so the record is in the
    authors list of the dataset document although its processing raised. *)
Lemma prepare_keeps_author_when_text_unreadable :
  text_files ada_adapter !! "Ada Lovelace" = Some "lovelace_ada.txt"
  /\ process_record offline_world ada_adapter ada no_outputs
     = (Raise (OSError "Permission denied"), {| authors := [ada_author]; texts := [] |})
  /\ dataset_authors (fst (prepare offline_world ada_adapter))
     = [ada_author]
  /\ snd (prepare offline_world ada_adapter) = [].
Proof. repeat split; vm_compute; reflexivity. Qed.

Lemma prepare_skips_failed_record_witness :
  fst (process_record offline_world ada_adapter emmy no_outputs)
  = Raise (ValueError "invalid literal for int(): c. 1935")
  /\ prepare offline_world
       {| personal := [ada] ++ emmy :: [ada]; text_files := text_files ada_adapter |}
     = prepare offline_world
         {| personal := [ada] ++ [ada]; text_files := text_files ada_adapter |}.
Proof.
  assert (H : fst (process_record offline_world
                     ada_adapter emmy no_outputs)
              = Raise (ValueError "invalid literal for int(): c. 1935"))
    by (vm_compute; reflexivity).
  split; [exact H |].
  apply (proj2 (prepare_skips_failed_record offline_world
                  ada_adapter [ada] [ada] emmy _ H)).
  right. eexists. split; vm_compute; reflexivity.
Defined.

(** ** The submitter *)

Section SubmitterProperties.

Variable api_url : string.
Variable server : list request -> request -> result response.

Lemma metadata_url_not_ingest : metadata_url api_url <> ingest_url api_url.
Proof.
  unfold metadata_url, ingest_url. intros Heq.
  apply (inj (String.app api_url)) in Heq. discriminate Heq.
Qed.

(** Phase 1 sends at most one request, to the metadata URL. *)
Lemma submit_metadata_log (dir : output_dir) (log : list request) :
  snd (submit_metadata api_url dir server log) = log
  \/ exists doc,
       snd (submit_metadata api_url dir server log)
       = log ++ [{| url := metadata_url api_url; payload := doc |}].
Proof.
  unfold submit_metadata.
  destruct (dataset_file dir) as [|[doc|e]]; simpl; eauto.
Qed.

(** The ways phase 1 fails: no dataset file, a dataset file that cannot be
    loaded, a call that raises, a status other than 200. *)
Lemma submit_metadata_failures (dir : output_dir) (log : list request) :
  (dataset_file dir = Absent ->
   submit_metadata api_url dir server log = (Ok false, log))
  /\ (forall e, dataset_file dir = Stored (Raise e) ->
      submit_metadata api_url dir server log = (Raise e, log))
  /\ (forall doc e,
        dataset_file dir = Stored (Ok doc) ->
        server log {| url := metadata_url api_url; payload := doc |} = Raise e ->
        fst (submit_metadata api_url dir server log) = Ok false)
  /\ (forall doc resp,
        dataset_file dir = Stored (Ok doc) ->
        server log {| url := metadata_url api_url; payload := doc |} = Ok resp ->
        status_code resp <> 200%Z ->
        fst (submit_metadata api_url dir server log) = Ok false).
Proof.
  unfold submit_metadata. repeat split.
  - by intros ->.
  - by intros e ->.
  - intros doc e -> Hcall. cbn [fst]. rewrite Hcall. by destruct e.
  - intros doc resp -> Hcall Hstatus. cbn [fst]. rewrite Hcall. cbn [bind].
    destruct (status_code resp =? 200)%Z eqn:Heq; [| done].
    by apply Z.eqb_eq in Heq.
Qed.

(** C5: when the metadata submission fails (status other than 200,
    connection failure, missing dataset file, or any exception) the run
    of [submit_all] stops after phase 1: the requests of the run are those
    of [submit_metadata], and none of them is a text-ingestion request. *)
Theorem metadata_failure_aborts_ingestion (dir : output_dir) :
  fst (submit_metadata api_url dir server []) <> Ok true ->
  snd (submit_all api_url dir server []) = snd (submit_metadata api_url dir server [])
  /\ Forall (fun req => url req <> ingest_url api_url)
       (snd (submit_all api_url dir server [])).
Proof.
  intros Hfail.
  assert (Hlog : snd (submit_all api_url dir server [])
                 = snd (submit_metadata api_url dir server [])).
  { unfold submit_all.
    destruct (submit_metadata api_url dir server []) as [[[|]|e] log']; [| done | done].
    by destruct Hfail. }
  split; [done |]. rewrite Hlog.
  destruct (submit_metadata_log dir []) as [-> | [doc ->]]; [constructor |].
  repeat constructor. apply metadata_url_not_ingest.
Qed.

(** C8: without [texts.json] in the output directory [submit_texts]
    returns 0; it raises nothing and sends nothing. *)
Theorem submit_texts_without_file (dataset : stored) (log : list request) :
  submit_texts api_url {| dataset_file := dataset; texts_file := Absent |} server log
  = (Ok 0%nat, log).
Proof. reflexivity. Qed.

(** C10: when [texts.json] holds an object whose "texts" list is empty,
    or that has no "texts" key, [submit_texts] returns 0 and sends no
    request. *)
Theorem submit_texts_nothing_to_ingest (dataset : stored)
    (fields : list (string * json)) (log : list request) :
  assoc "texts" fields = Some (JArr []) \/ assoc "texts" fields = None ->
  submit_texts api_url
    {| dataset_file := dataset; texts_file := Stored (Ok (JObj fields)) |} server log
  = (Ok 0%nat, log).
Proof.
  unfold submit_texts. cbn [texts_file bind py_get].
  by intros [-> | ->].
Qed.

(** Every item is attempted, in order, and moves exactly one counter. *)
Lemma ingest_loop_counts (items : list text_item) (success failed : nat)
    (log : list request) :
  exists success' failed',
    ingest_loop api_url server (map item_json items) success failed log
    = (Ok (success', failed'), log ++ map (request_of api_url) items)
    /\ (success' + failed' = success + failed + length items)%nat.
Proof.
  revert success failed log.
  induction items as [|t items IH]; intros success failed log.
  - exists success, failed. simpl. rewrite app_nil_r. split; [done | lia].
  - cbn [map ingest_loop].
    change (entity_id <~ py_getitem (item_json t) "entity_id" ;;
            text <~ py_getitem (item_json t) "text" ;;
            _ <~ py_slice entity_id ;;
            Ok (ingest_request api_url entity_id text))
      with (Ok (request_of api_url t)).
    cbv beta iota.
    destruct (ingest_attempt server log (request_of api_url t)).
    + destruct (IH (S success) failed (log ++ [request_of api_url t]))
        as (s' & f' & -> & Hsum).
      exists s', f'. split; [by rewrite <- app_assoc | simpl; lia].
    + destruct (IH success (S failed) (log ++ [request_of api_url t]))
        as (s' & f' & -> & Hsum).
      exists s', f'. split; [by rewrite <- app_assoc | simpl; lia].
Qed.

Lemma ingest_attempt_is_success (log : list request) (req : request) :
  ingest_attempt server log req = is_success (server log req).
Proof.
  unfold ingest_attempt, is_success.
  destruct (server log req) as [resp|e]; [| done]. cbn [bind].
  destruct (status_code resp =? 200)%Z; [| done]. cbn [andb].
  by destruct (response_json resp) as [[| | | | |d]|e].
Qed.

Lemma item_outcomes_length (log : list request) (reqs : list request) :
  length (item_outcomes server log reqs) = length reqs.
Proof.
  revert log. induction reqs as [|req reqs IH]; intros log; [done |].
  cbn [item_outcomes length]. by rewrite IH.
Qed.

Lemma successes_failures (outcomes : list bool) :
  (successes outcomes + failures outcomes = length outcomes)%nat.
Proof.
  unfold successes, failures.
  induction outcomes as [|[|] outcomes IH]; cbn [List.filter negb length]; lia.
Qed.

Lemma ingest_loop_outcomes (items : list text_item) (success failed : nat)
    (log : list request) :
  ingest_loop api_url server (map item_json items) success failed log
  = (Ok ((success
          + successes (item_outcomes server log (map (expected_request api_url) items)))%nat,
         (failed
          + failures (item_outcomes server log (map (expected_request api_url) items)))%nat),
     log ++ map (expected_request api_url) items).
Proof.
  revert success failed log.
  induction items as [|t items IH]; intros success failed log.
  - cbn [map ingest_loop item_outcomes]. unfold successes, failures. cbn [List.filter length].
    by rewrite !Nat.add_0_r, app_nil_r.
  - cbn [map ingest_loop item_outcomes].
    change (entity_id <~ py_getitem (item_json t) "entity_id" ;;
            text <~ py_getitem (item_json t) "text" ;;
            _ <~ py_slice entity_id ;;
            Ok (ingest_request api_url entity_id text))
      with (Ok (expected_request api_url t)).
    cbv beta iota. rewrite ingest_attempt_is_success.
    unfold successes, failures.
    destruct (is_success (server log (expected_request api_url t)));
      rewrite IH; unfold successes, failures;
      cbn [List.filter negb length]; rewrite <- app_assoc;
      (apply pair_equal_spec; split; [| done]);
      apply (f_equal Ok), pair_equal_spec; split; lia.
Qed.

(** C9: for every list of text items and every behaviour of the service,
    [submit_texts] sends the request of every item, in list order, whatever
    happened to the earlier ones.  Every item is counted once: as a success
    when the service answered its request with status 200 and a JSON object,
    as a failure on any other answer and on any exception.  So the two
    counters add up to the number of items, and the value returned is the
    number of successes. *)
Theorem submit_texts_attempts_every_item (dataset : stored) (items : list text_item)
    (log : list request) :
  ingest_loop api_url server (map item_json items) 0 0 log
  = (Ok (successes (item_outcomes server log (map (expected_request api_url) items)),
         failures (item_outcomes server log (map (expected_request api_url) items))),
     log ++ map (expected_request api_url) items)
  /\ length (item_outcomes server log (map (expected_request api_url) items))
     = length items
  /\ (successes (item_outcomes server log (map (expected_request api_url) items))
      + failures (item_outcomes server log (map (expected_request api_url) items))
      = length items)%nat
  /\ submit_texts api_url
       {| dataset_file := dataset; texts_file := Stored (Ok (texts_document items)) |}
       server log
     = (Ok (successes (item_outcomes server log (map (expected_request api_url) items))),
        log ++ map (expected_request api_url) items).
Proof.
  pose proof (ingest_loop_outcomes items 0 0 log) as Hloop. cbn [Nat.add] in Hloop.
  split; [exact Hloop |].
  split; [by rewrite item_outcomes_length, length_map |].
  split; [by rewrite successes_failures, item_outcomes_length, length_map |].
  destruct items as [|t items].
  - cbn [map item_outcomes]. unfold successes. cbn [List.filter length].
    by rewrite app_nil_r.
  - unfold submit_texts, texts_document.
    cbn [texts_file bind py_get assoc String.eqb Ascii.eqb Bool.eqb].
    cbn [map truthy negb py_len py_iter bind].
    cbn [map] in Hloop. by rewrite Hloop.
Qed.

End SubmitterProperties.

Lemma metadata_failure_aborts_ingestion_witness :
  fst (submit_metadata localhost
         (sample_dir (Stored (Ok (texts_document sample_items)))) failing_server [])
  <> Ok true
  /\ Forall (fun req => url req <> ingest_url localhost)
       (snd (submit_all localhost
               (sample_dir (Stored (Ok (texts_document sample_items)))) failing_server [])).
Proof.
  assert (H : fst (submit_metadata localhost
                     (sample_dir (Stored (Ok (texts_document sample_items))))
                     failing_server [])
              <> Ok true) by (vm_compute; discriminate).
  split; [exact H |].
  exact (proj2 (metadata_failure_aborts_ingestion localhost failing_server _ H)).
Defined.

Lemma submit_texts_nothing_to_ingest_witness :
  (assoc "texts" [("texts", JArr [])] = Some (JArr [])
   \/ assoc "texts" [("texts", JArr [])] = None)
  /\ submit_texts localhost
       {| dataset_file := Absent; texts_file := Stored (Ok (JObj [("texts", JArr [])])) |}
       flaky_server []
     = (Ok 0%nat, []).
Proof.
  assert (H : assoc "texts" [("texts", JArr [])] = Some (JArr [])
              \/ assoc "texts" [("texts", JArr [])] = None) by (left; reflexivity).
  split; [exact H |].
  exact (submit_texts_nothing_to_ingest localhost flaky_server Absent _ [] H).
Defined.

(** ** The submitter on sample runs *)

(** The service answers 500 to the metadata: one request, no ingestion. *)
Example submit_all_http_500 :
  submit_all localhost (sample_dir (Stored (Ok (texts_document sample_items))))
    failing_server []
  = (Ok tt,
     [{| url := "http://localhost:8000/api/women-in-math";
         payload := JObj [("dataset_id", JStr "women-in-math")] |}]).
Proof. reflexivity. Qed.

(** The first ingestion fails, the second one is still sent and counted. *)
Example submit_texts_after_failure :
  submit_texts localhost (sample_dir (Stored (Ok (texts_document sample_items))))
    flaky_server [{| url := metadata_url localhost; payload := JNull |}]
  = (Ok 1%nat,
     [{| url := metadata_url localhost; payload := JNull |};
      request_of localhost {| text_entity_id := "local:women-in-math:ada_lovelace";
                              text := "Ada" |};
      request_of localhost {| text_entity_id := "wikidata:Q7099"; text := "Emmy" |}]).
Proof. reflexivity. Qed.

(** An item without the key "entity_id" leaves the loop with a KeyError. *)
Example submit_texts_malformed_item :
  submit_texts localhost
    {| dataset_file := Absent;
       texts_file := Stored (Ok (JObj [("texts", JArr [JObj [("text", JStr "Ada")]])])) |}
    flaky_server []
  = (Raise (KeyError "entity_id"), []).
Proof. reflexivity. Qed.

(** The search finds a mathematician: the Wikidata identifier comes first
    and the local one is kept as an alternate. *)
Example map_entity_wikidata :
  map_entity online_world ada
  = Ok {| entity_id := "wikidata:Q7259";
          entity_ids := Some ["local:women-in-math:ada_lovelace"];
          confidence := 0.8%Q |}.
Proof. reflexivity. Qed.

(** * Further properties *)

(** ** The characters of slugs and candidates *)

Lemma list_ascii_app (s1 s2 : string) :
  list_ascii_of_string (s1 +:+ s2) = list_ascii_of_string s1 ++ list_ascii_of_string s2.
Proof.
  induction s1 as [|c s1 IH]; [done |].
  rewrite string_app_cons. cbn [list_ascii_of_string]. by rewrite IH.
Qed.

Lemma all_chars_app (P : ascii -> bool) (s1 s2 : string) :
  all_chars P (s1 +:+ s2) = all_chars P s1 && all_chars P s2.
Proof. unfold all_chars. by rewrite list_ascii_app, forallb_app. Qed.

Lemma all_chars_cons (P : ascii -> bool) (c : ascii) (s : string) :
  all_chars P (String c s) = P c && all_chars P s.
Proof. reflexivity. Qed.

Lemma slug_edits_char_unpunctuated (c : ascii) :
  all_chars is_unpunctuated (slug_edits (String c "")) = true.
Proof. destruct c as [[] [] [] [] [] [] [] []]; vm_compute; reflexivity. Qed.

Lemma slug_edits_unpunctuated (s : string) :
  all_chars is_unpunctuated (slug_edits s) = true.
Proof.
  induction s as [|c s IH]; [done |].
  change (String c s) with (String c "" +:+ s).
  by rewrite slug_edits_app, all_chars_app, slug_edits_char_unpunctuated, IH.
Qed.

(** X1: the local identifier of any name holds no space, no period, no
    comma and no parenthesis, whatever the lower-casing function is; and it
    is lower case (lower-casing it changes nothing) for every lower-casing
    function with the three properties of [lower_laws]. *)
Theorem local_id_characters (lower : string -> string) (name : string) :
  lower_laws lower ->
  all_chars is_unpunctuated (local_id_with lower name) = true
  /\ lower (local_id_with lower name) = local_id_with lower name.
Proof.
  intros Hlaws. unfold local_id_with. split.
  - apply slug_edits_unpunctuated.
  - apply (slug_edits_lowered lower (lower name) Hlaws), (lower_lowered lower Hlaws).
Qed.

Lemma local_id_characters_witness :
  lower_laws str_lower
  /\ all_chars is_unpunctuated
       (local_id_with str_lower "Dr. Mary (Polly) Smith, Jr.") = true.
Proof.
  split; [exact str_lower_laws |].
  exact (proj1 (local_id_characters str_lower "Dr. Mary (Polly) Smith, Jr."
                  str_lower_laws)).
Defined.

Lemma full_form_clean_char (c : ascii) :
  clean_candidate
    (str_replace "," "" (str_replace "." "" (str_replace " " "_" (str_lower (String c "")))))
  = local_id (String c "").
Proof. destruct c as [[] [] [] [] [] [] [] []]; vm_compute; reflexivity. Qed.

Lemma full_form_clean (s : string) :
  clean_candidate
    (str_replace "," "" (str_replace "." "" (str_replace " " "_" (str_lower s))))
  = local_id s.
Proof.
  induction s as [|c s IH]; [done |].
  change (String c s) with (String c "" +:+ s).
  rewrite local_id_app, <- IH, <- full_form_clean_char.
  unfold clean_candidate. by rewrite str_lower_app, !replace_char_app.
Qed.

(** X2: the last candidate the matcher tries for a name is the local
    identifier the resolver derives from the same name. *)
Theorem last_candidate_is_local_id (name : string) :
  List.last (candidates name) "" = local_id name.
Proof.
  unfold candidates, raw_candidates. cbv zeta.
  rewrite map_app. cbn [map]. rewrite List.last_last. apply full_form_clean.
Qed.

Lemma lower_no_upper (s : string) :
  all_chars (fun c => negb (is_upper c)) (str_lower s) = true.
Proof.
  induction s as [|c s IH]; [done |].
  cbn [str_lower]. rewrite all_chars_cons, IH, andb_true_r.
  destruct c as [[] [] [] [] [] [] [] []]; reflexivity.
Qed.

Lemma all_chars_replace (P : ascii -> bool) (a : ascii) (new s : string) :
  all_chars P s = true -> all_chars P new = true ->
  all_chars P (str_replace (String a "") new s) = true.
Proof.
  intros Hs Hnew. induction s as [|c s IH]; [done |].
  rewrite all_chars_cons in Hs. apply andb_true_iff in Hs as [Hc Hs].
  rewrite replace_char_cons, all_chars_app, (IH Hs), andb_true_r.
  destruct (Ascii.eqb a c); [done |]. by rewrite all_chars_cons, Hc.
Qed.

Lemma all_chars_remove (P : ascii -> bool) (a : ascii) (s : string) :
  all_chars P s = true ->
  all_chars (fun c => P c && negb (Ascii.eqb c a)) (str_replace (String a "") "" s) = true.
Proof.
  intros Hs. induction s as [|c s IH]; [done |].
  rewrite all_chars_cons in Hs. apply andb_true_iff in Hs as [Hc Hs].
  rewrite replace_char_cons, all_chars_app, (IH Hs), andb_true_r.
  destruct (Ascii.eqb a c) eqn:Hac; [done |].
  rewrite all_chars_cons, Hc. cbn [andb all_chars list_ascii_of_string forallb].
  rewrite Ascii.eqb_sym, Hac. done.
Qed.

Lemma clean_candidate_key (t : string) :
  all_chars (fun c => negb (is_upper c)) t = true ->
  all_chars is_key_char (clean_candidate t) = true.
Proof.
  intros Ht. unfold clean_candidate.
  apply (all_chars_remove _ "."), (all_chars_remove _ ")"), (all_chars_remove _ "(").
  exact Ht.
Qed.

Lemma join_lower_no_upper (l : list string) :
  all_chars (fun c => negb (is_upper c)) (str_join "_" (map str_lower l)) = true.
Proof.
  induction l as [|x l IH]; [done |].
  destruct l as [|y l]; [apply lower_no_upper |].
  change (str_join "_" (map str_lower (x :: y :: l)))
    with (str_lower x +:+ "_" +:+ str_join "_" (map str_lower (y :: l))).
  by rewrite !all_chars_app, lower_no_upper, IH.
Qed.

Lemma last_lower_no_upper (l : list string) :
  all_chars (fun c => negb (is_upper c)) (List.last (map str_lower l) "") = true.
Proof.
  induction l as [|x l IH]; [done |].
  destruct l as [|y l]; [apply lower_no_upper | exact IH].
Qed.

Lemma hd_lower_no_upper (l : list string) :
  all_chars (fun c => negb (is_upper c)) (hd "" (map str_lower l)) = true.
Proof. destruct l; [done | apply lower_no_upper]. Qed.

Lemma raw_candidates_no_upper (name c : string) :
  c ∈ raw_candidates name -> all_chars (fun c => negb (is_upper c)) c = true.
Proof.
  unfold raw_candidates. cbv zeta.
  destruct (2 <=? length (str_split name))%nat;
    [destruct (1 <? length (map str_lower (removelast (str_split name))))%nat |];
    cbn [app]; intros Hin;
    repeat (apply elem_of_cons in Hin as [-> | Hin]);
    try (by apply elem_of_nil in Hin);
    rewrite ?all_chars_app, ?lower_no_upper, ?join_lower_no_upper,
      ?last_lower_no_upper, ?hd_lower_no_upper; try reflexivity;
    repeat (apply all_chars_replace; [| reflexivity]); apply lower_no_upper.
Qed.

Lemma key_chars_no_dot (c : string) :
  all_chars is_key_char c = true ->
  Forall (fun x => x <> "."%char) (list_ascii_of_string c).
Proof.
  unfold all_chars. rewrite forallb_forall, Forall_forall.
  intros Hall x Hx%list_elem_of_In. specialize (Hall x Hx).
  unfold is_key_char in Hall. apply andb_true_iff in Hall as [_ Hdot].
  intros ->. done.
Qed.

Lemma replace_absent (a : ascii) (new s : string) :
  all_chars (fun c => negb (Ascii.eqb c a)) s = true ->
  str_replace (String a "") new s = s.
Proof.
  induction s as [|c s IH]; [done |].
  rewrite all_chars_cons. intros [Hc Hs]%andb_true_iff.
  rewrite replace_char_cons, (IH Hs), Ascii.eqb_sym.
  apply negb_true_iff in Hc. by rewrite Hc.
Qed.

Lemma all_chars_impl (P Q : ascii -> bool) (s : string) :
  (forall c, P c = true -> Q c = true) ->
  all_chars P s = true -> all_chars Q s = true.
Proof.
  intros HPQ. unfold all_chars. rewrite !forallb_forall. eauto.
Qed.

Lemma candidates_in_keys (name c : string) :
  c ∈ candidates name -> all_chars is_key_char c = true.
Proof.
  unfold candidates. intros Hin%list_elem_of_In%in_map_iff.
  destruct Hin as (raw & <- & Hraw%list_elem_of_In).
  apply clean_candidate_key. by apply (raw_candidates_no_upper name).
Qed.

(** The clean-up pass, applied to any text, leaves no parenthesis and no
    period. *)
Lemma clean_candidate_clean (t : string) :
  all_chars is_clean_char (clean_candidate t) = true.
Proof.
  unfold clean_candidate.
  apply (all_chars_impl
           (fun c => (((fun _ => true) c && negb (Ascii.eqb c "("))
                      && negb (Ascii.eqb c ")")) && negb (Ascii.eqb c "."))).
  { intros c Hc. exact Hc. }
  apply (all_chars_remove _ "."), (all_chars_remove _ ")"), (all_chars_remove _ "(").
  unfold all_chars. by apply forallb_forall.
Qed.

Lemma clean_candidate_again (c : string) :
  all_chars is_clean_char c = true -> clean_candidate c = c.
Proof.
  intros Hclean. unfold clean_candidate.
  rewrite (replace_absent "(" "" c), (replace_absent ")" "" c), (replace_absent "." "" c);
    [done | ..];
    (eapply all_chars_impl; [| exact Hclean]);
    intros x Hx; unfold is_clean_char in Hx;
    apply andb_true_iff in Hx as [Hx Hdot];
    apply andb_true_iff in Hx as [Hopen Hclose]; done.
Qed.

(** X3: every candidate of every name has gone through the clean-up pass:
    it holds no parenthesis and no period, and cleaning it again leaves it
    unchanged; this does not depend on how the name is lower-cased or
    split. *)
Theorem candidates_are_keys (name c : string) :
  c ∈ candidates name ->
  all_chars is_clean_char c = true /\ clean_candidate c = c.
Proof.
  unfold candidates. intros Hin%list_elem_of_In%in_map_iff.
  destruct Hin as (raw & <- & _).
  split; [apply clean_candidate_clean | apply clean_candidate_again, clean_candidate_clean].
Qed.

Lemma candidates_are_keys_witness :
  "arnoldy_nicholas" ∈ candidates "Sister Mary Nicholas Arnoldy"
  /\ clean_candidate "arnoldy_nicholas" = "arnoldy_nicholas".
Proof.
  assert (H : "arnoldy_nicholas" ∈ candidates "Sister Mary Nicholas Arnoldy")
    by (vm_compute; apply list_elem_of_further, list_elem_of_here).
  split; [exact H | exact (proj2 (candidates_are_keys _ _ H))].
Defined.

(** X4: a name of one part (or none) has one candidate, a name of two
    parts has three, a longer name has five. *)
Theorem candidates_count (name : string) :
  length (candidates name)
  = match length (str_split name) with
    | 0 | 1 => 1
    | 2 => 3
    | _ => 5
    end%nat.
Proof.
  unfold candidates. rewrite length_map. unfold raw_candidates. cbv zeta.
  destruct (str_split name) as [|a [|b [|c l]]]; reflexivity.
Qed.

(** ** The mapping from names to text files *)

Lemma find_text_file_some (c f : string) (files : list string) :
  find_text_file c files = Some f ->
  f ∈ files /\ str_lower (stem f) = str_lower c.
Proof.
  induction files as [|g files IH]; [done |].
  cbn [find_text_file].
  destruct (String.eqb (str_lower (stem g)) (str_lower c)) eqn:Heq.
  - intros [= ->]. split; [apply list_elem_of_here | by apply String.eqb_eq].
  - intros [Hin Hkey]%IH. split; [by apply list_elem_of_further | done].
Qed.

Lemma find_text_file_none (c : string) (files : list string) :
  find_text_file c files = None
  <-> forall f, f ∈ files -> str_lower (stem f) <> str_lower c.
Proof.
  induction files as [|g files IH].
  - split; [intros _ f Hf; by apply elem_of_nil in Hf | done].
  - cbn [find_text_file].
    destruct (String.eqb (str_lower (stem g)) (str_lower c)) eqn:Heq.
    + apply String.eqb_eq in Heq. split; [done |].
      intros Hall. destruct (Hall g); [apply list_elem_of_here | done].
    + apply String.eqb_neq in Heq. rewrite IH. split.
      * intros Hall f [-> | Hf]%elem_of_cons; [done | by apply Hall].
      * intros Hall f Hf. by apply Hall, list_elem_of_further.
Qed.

Lemma first_match_some (cands files : list string) (f : string) :
  first_match cands files = Some f ->
  exists c, c ∈ cands /\ find_text_file c files = Some f.
Proof.
  induction cands as [|c cands IH]; [done |].
  cbn [first_match].
  destruct (find_text_file c files) as [g|] eqn:Hfind.
  - intros [= ->]. exists c. split; [apply list_elem_of_here | done].
  - intros (c' & Hin & Hc')%IH. exists c'. split; [by apply list_elem_of_further | done].
Qed.

Lemma first_match_none (cands files : list string) :
  first_match cands files = None
  <-> forall c, c ∈ cands -> find_text_file c files = None.
Proof.
  induction cands as [|c cands IH].
  - split; [intros _ c Hc; by apply elem_of_nil in Hc | done].
  - cbn [first_match].
    destruct (find_text_file c files) as [g|] eqn:Hfind.
    + split; [done |]. intros Hall.
      rewrite (Hall c) in Hfind; [done | apply list_elem_of_here].
    + rewrite IH. split.
      * intros Hall c' [-> | Hc']%elem_of_cons; [done | by apply Hall].
      * intros Hall c' Hc'. by apply Hall, list_elem_of_further.
Qed.

Lemma find_text_file_skip (c : string) (before rest : list string) :
  (forall f, f ∈ before -> str_lower (stem f) <> str_lower c) ->
  find_text_file c (before ++ rest) = find_text_file c rest.
Proof.
  induction before as [|g before IH]; [done |]. intros Hbefore.
  cbn [app find_text_file].
  destruct (String.eqb (str_lower (stem g)) (str_lower c)) eqn:Heq.
  - apply String.eqb_eq in Heq. destruct (Hbefore g); [apply list_elem_of_here | done].
  - apply IH. intros f Hf. by apply Hbefore, list_elem_of_further.
Qed.

Lemma raw_candidates_in_order (name : string) :
  (2 <= length (str_split name))%nat ->
  exists g0 gs surname,
    str_split name = (g0 :: gs) ++ [surname]
    /\ raw_candidates name
       = [str_lower surname +:+ "_" +:+ str_join "_" (map str_lower (g0 :: gs))]
         ++ match gs with
            | [] => []
            | _ => [str_lower surname +:+ "_" +:+ str_lower (List.last gs g0);
                    str_lower surname +:+ "_" +:+ str_lower g0]
            end
         ++ [str_lower g0 +:+ "_" +:+ str_lower surname]
         ++ [str_replace "," "" (str_replace "." ""
               (str_replace " " "_" (str_lower name)))].
Proof.
  intros Hlen.
  destruct (split_at_surname _ Hlen) as (g0 & gs & surname & Hparts).
  exists g0, gs, surname. split; [done |].
  unfold raw_candidates. rewrite Hparts.
  rewrite List.last_last, List.removelast_last.
  replace (2 <=? length ((g0 :: gs) ++ [surname]))%nat with true
    by (symmetry; apply Nat.leb_le; rewrite length_app; simpl; lia).
  destruct gs as [|g1 gs]; [done |].
  replace (1 <? length (map str_lower (g0 :: g1 :: gs)))%nat with true
    by (symmetry; apply Nat.ltb_lt; simpl; lia).
  change (List.last (map str_lower (g0 :: g1 :: gs)) "")
    with (List.last (map str_lower (g1 :: gs)) "").
  rewrite (last_map_lower (g1 :: gs) g0) by done.
  reflexivity.
Qed.

(** C6, amended: for a name of at least two whitespace-separated parts the
    last part is the surname and the others are the given names; the
    candidates appended are, in order, surname_all-given-names, then (with
    more than one given name) surname_last-given-name and
    surname_first-given-name, then first-part_last-part (and the full-name
    form after them).  For "Sister Mary Nicholas Arnoldy" the second
    candidate is [arnoldy_nicholas]; with the file [arnoldy_nicholas.txt]
    among the listed files the name is mapped to that file when no listed
    file has the key of the first candidate, arnoldy_sister_mary_nicholas,
    and no file listed before it has the key arnoldy_nicholas (keys compared
    without regard to letter case). *)
Theorem candidates_surname_first (name : string) (rows : list person)
    (listing before after : list string) :
  (2 <= length (str_split name))%nat ->
  "Sister Mary Nicholas Arnoldy" ∈ map full_name rows ->
  glob_txt listing = before ++ "arnoldy_nicholas.txt" :: after ->
  (forall f, f ∈ glob_txt listing ->
             str_lower (stem f) <> "arnoldy_sister_mary_nicholas") ->
  (forall f, f ∈ before -> str_lower (stem f) <> "arnoldy_nicholas") ->
  (exists g0 gs surname,
      str_split name = (g0 :: gs) ++ [surname]
      /\ raw_candidates name
         = [str_lower surname +:+ "_" +:+ str_join "_" (map str_lower (g0 :: gs))]
           ++ match gs with
              | [] => []
              | _ => [str_lower surname +:+ "_" +:+ str_lower (List.last gs g0);
                      str_lower surname +:+ "_" +:+ str_lower g0]
              end
           ++ [str_lower g0 +:+ "_" +:+ str_lower surname]
           ++ [str_replace "," "" (str_replace "." ""
                 (str_replace " " "_" (str_lower name)))])
  /\ candidates "Sister Mary Nicholas Arnoldy" !! 1%nat = Some "arnoldy_nicholas"
  /\ text_files (__init__ rows listing) !! "Sister Mary Nicholas Arnoldy"
     = Some "arnoldy_nicholas.txt".
Proof.
  intros Hlen Hrow Hlisted Hfirst Hbefore.
  split; [by apply raw_candidates_in_order |]. split; [reflexivity |].
  unfold __init__. cbn [text_files].
  rewrite build_text_mapping_lookup, decide_True by done.
  change (candidates "Sister Mary Nicholas Arnoldy")
    with ["arnoldy_sister_mary_nicholas"; "arnoldy_nicholas"; "arnoldy_sister";
          "sister_arnoldy"; "sister_mary_nicholas_arnoldy"].
  cbn [first_match].
  rewrite (proj2 (find_text_file_none "arnoldy_sister_mary_nicholas" _) Hfirst).
  rewrite Hlisted, (find_text_file_skip "arnoldy_nicholas" before _ Hbefore).
  reflexivity.
Qed.

Lemma candidates_surname_first_witness :
  (2 <= length (str_split "Sister Mary Nicholas Arnoldy"))%nat
  /\ "Sister Mary Nicholas Arnoldy" ∈ map full_name [ada; sister_mary]
  /\ glob_txt ["notes.md"; "adams_rachel.txt"; "arnoldy_nicholas.txt"; "arnoldy_sister.txt"]
     = ["adams_rachel.txt"] ++ "arnoldy_nicholas.txt" :: ["arnoldy_sister.txt"]
  /\ text_files
       (__init__ [ada; sister_mary]
          ["notes.md"; "adams_rachel.txt"; "arnoldy_nicholas.txt"; "arnoldy_sister.txt"])
       !! "Sister Mary Nicholas Arnoldy"
     = Some "arnoldy_nicholas.txt".
Proof.
  assert (H1 : (2 <= length (str_split "Sister Mary Nicholas Arnoldy"))%nat)
    by (vm_compute; lia).
  assert (H2 : "Sister Mary Nicholas Arnoldy" ∈ map full_name [ada; sister_mary])
    by apply list_elem_of_further, list_elem_of_here.
  assert (H3 : glob_txt ["notes.md"; "adams_rachel.txt"; "arnoldy_nicholas.txt";
                         "arnoldy_sister.txt"]
               = ["adams_rachel.txt"] ++ "arnoldy_nicholas.txt" :: ["arnoldy_sister.txt"])
    by (vm_compute; reflexivity).
  split; [exact H1 |]. split; [exact H2 |]. split; [exact H3 |].
  apply (proj2 (proj2 (candidates_surname_first _ _ _ _ _ H1 H2 H3
                         ltac:(rewrite H3; intros f Hf;
                               repeat (apply elem_of_cons in Hf as [-> | Hf]);
                               [vm_compute; discriminate .. | by apply elem_of_nil in Hf])
                         ltac:(intros f Hf;
                               repeat (apply elem_of_cons in Hf as [-> | Hf]);
                               [vm_compute; discriminate .. | by apply elem_of_nil in Hf])))).
Defined.

(** C6 as stated fails: [arnoldy_nicholas.txt] is present, but a file with
    the key of the first candidate is listed too, and the name is mapped to
    that file; so it is with the key arnoldy_nicholas carried by a file
    listed earlier. *)
Lemma first_match_is_not_always_arnoldy_nicholas :
  "arnoldy_nicholas.txt"
    ∈ glob_txt ["arnoldy_nicholas.txt"; "arnoldy_sister_mary_nicholas.txt"]
  /\ text_files (__init__ [sister_mary]
                   ["arnoldy_nicholas.txt"; "arnoldy_sister_mary_nicholas.txt"])
       !! "Sister Mary Nicholas Arnoldy"
     = Some "arnoldy_sister_mary_nicholas.txt"
  /\ "arnoldy_nicholas.txt"
       ∈ glob_txt ["ARNOLDY_NICHOLAS.pdf.txt"; "arnoldy_nicholas.txt"]
  /\ text_files (__init__ [sister_mary]
                   ["ARNOLDY_NICHOLAS.pdf.txt"; "arnoldy_nicholas.txt"])
       !! "Sister Mary Nicholas Arnoldy"
     = Some "ARNOLDY_NICHOLAS.pdf.txt".
Proof.
  split; [vm_compute; apply list_elem_of_here |].
  split; [vm_compute; reflexivity |].
  split; [vm_compute; apply list_elem_of_further, list_elem_of_here |].
  vm_compute; reflexivity.
Qed.

(** X5: after [__init__] a name of the table is mapped to the first match,
    in candidate order and then in the order of the listed [.txt] files;
    a name that is not in the table is not mapped. *)
Theorem init_maps_first_match (rows : list person) (listing : list string) (n : string) :
  text_files (__init__ rows listing) !! n
  = if decide (n ∈ map full_name rows)
    then first_match (candidates n) (glob_txt listing)
    else None.
Proof. apply build_text_mapping_lookup. Qed.

(** X6: a name is only mapped to a file of the directory whose name ends
    in [.txt] and whose key, lower-cased, equals a candidate of that name,
    lower-cased (the comparison of line 91); and only names of the table
    are mapped. *)
Theorem mapped_file_matches (rows : list person) (listing : list string) (n f : string) :
  text_files (__init__ rows listing) !! n = Some f ->
  n ∈ map full_name rows
  /\ f ∈ listing
  /\ endswith ".txt" f = true
  /\ exists c, c ∈ candidates n /\ str_lower (stem f) = str_lower c.
Proof.
  unfold __init__. cbn [text_files]. rewrite build_text_mapping_lookup.
  destruct (decide (n ∈ map full_name rows)) as [Hn|]; [| done].
  intros (c & Hc & Hfind)%first_match_some.
  apply find_text_file_some in Hfind as [Hf Hkey].
  apply list_elem_of_filter in Hf as [Htxt Hf].
  repeat split; try done. by exists c.
Qed.

(** X7: a name of the table stays unmapped exactly when no listed [.txt]
    file has a key that, lower-cased, equals one of its candidates,
    lower-cased (the comparison of line 91). *)
Theorem unmapped_iff_no_match (rows : list person) (listing : list string) (n : string) :
  n ∈ map full_name rows ->
  text_files (__init__ rows listing) !! n = None
  <-> forall c f, c ∈ candidates n -> f ∈ glob_txt listing ->
                  str_lower (stem f) <> str_lower c.
Proof.
  intros Hn. unfold __init__. cbn [text_files].
  rewrite build_text_mapping_lookup, decide_True by done.
  rewrite first_match_none. split.
  - intros Hall c f Hc Hf.
    exact (proj1 (find_text_file_none c _) (Hall c Hc) f Hf).
  - intros Hall c Hc. apply find_text_file_none. intros f Hf. by apply Hall.
Qed.

(** X8: the mapping depends on the table through its set of names only:
    neither the order of the rows, nor repeated rows, nor the other columns
    change it. *)
Theorem mapping_depends_on_names (rows1 rows2 : list person) (files : list string) :
  (forall n, n ∈ map full_name rows1 <-> n ∈ map full_name rows2) ->
  _build_text_mapping rows1 files = _build_text_mapping rows2 files.
Proof.
  intros Hnames. apply map_eq. intros n.
  rewrite !build_text_mapping_lookup.
  destruct (decide (n ∈ map full_name rows1)) as [H1|H1];
    destruct (decide (n ∈ map full_name rows2)) as [H2|H2];
    [done | | | done]; by apply Hnames in H1 || apply Hnames in H2.
Qed.

Lemma mapped_file_matches_witness :
  text_files (__init__ [ada] ["lovelace_ada.txt"]) !! "Ada Lovelace" = Some "lovelace_ada.txt"
  /\ exists c, c ∈ candidates "Ada Lovelace"
               /\ str_lower (stem "lovelace_ada.txt") = str_lower c.
Proof.
  assert (H : text_files (__init__ [ada] ["lovelace_ada.txt"]) !! "Ada Lovelace"
              = Some "lovelace_ada.txt") by (vm_compute; reflexivity).
  split; [exact H |].
  exact (proj2 (proj2 (proj2 (mapped_file_matches _ _ _ _ H)))).
Defined.

Lemma unmapped_iff_no_match_witness :
  "Ada Lovelace" ∈ map full_name [ada]
  /\ text_files (__init__ [ada] ["noether_emmy.txt"]) !! "Ada Lovelace" = None.
Proof.
  assert (H : "Ada Lovelace" ∈ map full_name [ada]) by apply list_elem_of_here.
  split; [exact H |].
  apply (proj2 (unmapped_iff_no_match [ada] ["noether_emmy.txt"] _ H)).
  intros c f Hc Hf.
  apply list_elem_of_filter in Hf as [_ ->%list_elem_of_singleton].
  vm_compute in Hc.
  repeat (apply elem_of_cons in Hc as [-> | Hc]);
    [vm_compute; discriminate .. | by apply elem_of_nil in Hc].
Defined.

Lemma mapping_depends_on_names_witness :
  (forall n, n ∈ map full_name [ada; emmy] <-> n ∈ map full_name [emmy; ada; ada])
  /\ _build_text_mapping [ada; emmy] ["lovelace_ada.txt"]
     = _build_text_mapping [emmy; ada; ada] ["lovelace_ada.txt"].
Proof.
  assert (H : forall n, n ∈ map full_name [ada; emmy] <-> n ∈ map full_name [emmy; ada; ada]).
  { intros n. cbn [map]. rewrite !elem_of_cons. tauto. }
  split; [exact H | exact (mapping_depends_on_names _ _ _ H)].
Defined.

Lemma rev_app_acc (s acc : string) :
  String.rev_app s acc = String.rev_app s "" +:+ acc.
Proof.
  revert acc. induction s as [|a s IH]; intros acc; [done |].
  cbn [String.rev_app]. rewrite (IH (String a acc)), (IH (String a "")).
  by rewrite string_app_assoc.
Qed.

Lemma rev_app_app (s1 s2 acc : string) :
  String.rev_app (s1 +:+ s2) acc = String.rev_app s2 (String.rev_app s1 acc).
Proof.
  revert acc. induction s1 as [|a s1 IH]; intros acc; [done |].
  rewrite string_app_cons. cbn [String.rev_app]. apply IH.
Qed.

Lemma endswith_app (p s : string) : endswith p (s +:+ p) = true.
Proof.
  unfold endswith, String.rev.
  rewrite rev_app_app, (rev_app_acc p (String.rev_app s "")). apply prefix_of_app.
Qed.

(** X9: a file named after a candidate of a name, with the extension
    [.txt] or [.pdf.txt], is enough for that name of the table to be
    mapped. *)
Theorem file_named_after_candidate (rows : list person) (listing : list string)
    (n c : string) :
  n ∈ map full_name rows ->
  c ∈ candidates n ->
  (c +:+ ".txt") ∈ listing \/ (c +:+ ".pdf.txt") ∈ listing ->
  is_Some (text_files (__init__ rows listing) !! n).
Proof.
  intros Hn Hc Hfile.
  pose proof (candidates_in_keys n c Hc) as Hkey.
  destruct (stem_of_plain_name c (key_chars_no_dot c Hkey)) as [Hpdf Htxt].
  assert (Hfound : exists f, f ∈ glob_txt listing /\ str_lower (stem f) = str_lower c).
  { destruct Hfile as [Hf | Hf].
    - exists (c +:+ ".txt"). split; [| by rewrite Htxt].
      apply list_elem_of_filter. split; [apply endswith_app | done].
    - exists (c +:+ ".pdf.txt"). split; [| by rewrite Hpdf].
      apply list_elem_of_filter. split; [| done].
      change (c +:+ ".pdf.txt") with (c +:+ ".pdf" +:+ ".txt").
      rewrite <- string_app_assoc. apply endswith_app. }
  destruct Hfound as (f & Hf & Hkeyf).
  unfold __init__. cbn [text_files].
  rewrite build_text_mapping_lookup, decide_True by done.
  destruct (first_match (candidates n) (glob_txt listing)) as [g|] eqn:Hfirst; [by eexists |].
  pose proof (proj1 (first_match_none _ _) Hfirst c Hc) as Hnone.
  by destruct (proj1 (find_text_file_none _ _) Hnone f Hf).
Qed.

Lemma file_named_after_candidate_witness :
  "Ada Lovelace" ∈ map full_name [emmy; ada]
  /\ "lovelace_ada" ∈ candidates "Ada Lovelace"
  /\ is_Some (text_files (__init__ [emmy; ada] ["notes.md"; "lovelace_ada.pdf.txt"])
                !! "Ada Lovelace").
Proof.
  assert (Hn : "Ada Lovelace" ∈ map full_name [emmy; ada])
    by apply list_elem_of_further, list_elem_of_here.
  assert (Hc : "lovelace_ada" ∈ candidates "Ada Lovelace")
    by (vm_compute; apply list_elem_of_here).
  split; [exact Hn |]. split; [exact Hc |].
  apply (file_named_after_candidate _ _ _ _ Hn Hc).
  right. apply list_elem_of_further, list_elem_of_here.
Defined.

(** ** The Wikidata lookup and the resolver, case by case *)

Lemma scan_results_skip (pre rest : list json) :
  Forall not_a_mathematician pre ->
  scan_results (pre ++ rest) = scan_results rest.
Proof.
  induction 1 as [|r pre (d & Hget & Hnot) _ IH]; [done |].
  cbn [app scan_results]. rewrite Hget. cbn [bind py_lower]. by rewrite Hnot.
Qed.

Lemma lookup_wikidata_scan (w : world) (name : string) (resp : response)
    (fields : list (string * json)) (results : list json) :
  wikidata w name = Ok resp ->
  status_code resp = 200%Z ->
  response_json resp = Ok (JObj fields) ->
  assoc "search" fields = Some (JArr results) ->
  lookup_wikidata w name
  = match scan_results results with
    | Ok found => Ok found
    | Raise _ => Ok None
    end.
Proof.
  intros Hresp Hstatus Hjson Hsearch.
  unfold lookup_wikidata, lookup_wikidata_body.
  rewrite Hresp. cbn [bind]. rewrite Hstatus. cbn [Z.eqb Pos.eqb negb].
  rewrite Hjson. cbn [bind py_get]. rewrite Hsearch. cbn [bind py_iter].
  by destruct (scan_results results).
Qed.

(** X10: when the search answers 200 with a list of results, the lookup
    returns the identifier of the first result whose description mentions
    "mathematician" in any letter case, provided the results before it are
    objects with a string description (or none); later results are not
    looked at. *)
Theorem lookup_first_mathematician (w : world) (name : string) (resp : response)
    (fields : list (string * json)) (pre post : list json) (hit qid : json) (d : string) :
  wikidata w name = Ok resp ->
  status_code resp = 200%Z ->
  response_json resp = Ok (JObj fields) ->
  assoc "search" fields = Some (JArr (pre ++ hit :: post)) ->
  Forall not_a_mathematician pre ->
  py_get hit "description" (JStr "") = Ok (JStr d) ->
  str_contains "mathematician" (str_lower d) = true ->
  py_getitem hit "id" = Ok qid ->
  lookup_wikidata w name = Ok (Some qid).
Proof.
  intros Hresp Hstatus Hjson Hsearch Hpre Hdesc Hmath Hid.
  rewrite (lookup_wikidata_scan w name resp fields _ Hresp Hstatus Hjson Hsearch).
  rewrite (scan_results_skip pre _ Hpre). cbn [scan_results].
  rewrite Hdesc. cbn [bind py_lower]. rewrite Hmath, Hid. done.
Qed.

Lemma lookup_first_mathematician_witness :
  Forall not_a_mathematician
    [JObj [("id", JStr "Q1"); ("description", JStr "French painter")]]
  /\ lookup_wikidata painter_first_world "Ada Lovelace" = Ok (Some (JStr "Q7259")).
Proof.
  assert (H : Forall not_a_mathematician
                [JObj [("id", JStr "Q1"); ("description", JStr "French painter")]]).
  { repeat constructor. by exists "French painter". }
  split; [exact H |].
  apply (lookup_first_mathematician painter_first_world "Ada Lovelace"
           (search_response painter_first) [("search", JArr painter_first)]
           [JObj [("id", JStr "Q1"); ("description", JStr "French painter")]] []
           (JObj [("id", JStr "Q7259");
                  ("description", JStr "English Mathematician and writer")])
           (JStr "Q7259") "English Mathematician and writer");
    first [exact H | reflexivity].
Defined.

(** X11: a result whose description cannot be read (the result is not an
    object, or its description is not a string) and that comes before any
    mathematician makes the lookup return no match, whatever follows it. *)
Theorem lookup_stops_at_unreadable_result (w : world) (name : string) (resp : response)
    (fields : list (string * json)) (pre post : list json) (bad : json) (e : exn) :
  wikidata w name = Ok resp ->
  status_code resp = 200%Z ->
  response_json resp = Ok (JObj fields) ->
  assoc "search" fields = Some (JArr (pre ++ bad :: post)) ->
  Forall not_a_mathematician pre ->
  (d <~ py_get bad "description" (JStr "") ;; py_lower d) = Raise e ->
  lookup_wikidata w name = Ok None.
Proof.
  intros Hresp Hstatus Hjson Hsearch Hpre Hbad.
  rewrite (lookup_wikidata_scan w name resp fields _ Hresp Hstatus Hjson Hsearch).
  rewrite (scan_results_skip pre _ Hpre). cbn [scan_results].
  destruct (py_get bad "description" (JStr "")) as [v|e1]; [| done].
  cbn [bind] in *. by rewrite Hbad.
Qed.

Lemma lookup_stops_at_unreadable_result_witness :
  (d <~ py_get JNull "description" (JStr "") ;; py_lower d) = Raise AttributeError
  /\ lookup_wikidata broken_first_world "Ada Lovelace" = Ok None.
Proof.
  assert (H : (d <~ py_get JNull "description" (JStr "") ;; py_lower d)
              = Raise AttributeError) by reflexivity.
  split; [exact H |].
  apply (lookup_stops_at_unreadable_result broken_first_world "Ada Lovelace"
           (search_response (JNull :: painter_first))
           [("search", JArr (JNull :: painter_first))] [] painter_first JNull
           AttributeError);
    first [exact H | constructor | reflexivity].
Defined.

Lemma validate_alternates_ok (w : world) (eids : list string) :
  validate_alternates w eids = Ok tt ->
  Forall (fun eid => validate w eid = Ok true) eids.
Proof.
  induction eids as [|eid eids IH]; [constructor |].
  cbn [validate_alternates].
  destruct (validate w eid) as [[|]|e] eqn:Hv; [| done | done].
  cbn [bind]. intros Hrest. constructor; [done | by apply IH].
Qed.

Lemma map_entity_checked (w : world) (p : person) (m : entity_mapping) :
  map_entity w p = Ok m ->
  validate w (entity_id m) = Ok true
  /\ forall eids, entity_ids m = Some eids ->
       Forall (fun eid => validate w eid = Ok true) eids.
Proof.
  unfold map_entity.
  destruct (lookup_wikidata w (full_name p)) as [r|e]; [| done].
  cbn [bind].
  set (mapping := match r with
                  | Some qid =>
                      if truthy qid
                      then wikidata_mapping w (full_name p) qid
                      else local_mapping (full_name p)
                  | None => local_mapping (full_name p)
                  end).
  destruct (validate w (entity_id mapping)) as [[|]|e] eqn:Hid; [| done | done].
  cbn [bind negb].
  destruct (entity_ids mapping) as [[|eid rest]|] eqn:Hids.
  - cbn [bind]. intros [= <-]. split; [done |].
    rewrite Hids. intros eids [= <-]. constructor.
  - destruct (validate_alternates w (eid :: rest)) as [[]|e] eqn:Halt; [| done].
    cbn [bind]. intros [= <-]. split; [done |].
    rewrite Hids. intros eids [= <-]. by apply validate_alternates_ok.
  - cbn [bind]. intros [= <-]. split; [done |]. by rewrite Hids.
Qed.

(** X12: every mapping the resolver returns has passed the validator: its
    entity_id and each of its alternate identifiers were accepted. *)
Theorem returned_mapping_is_validated (w : world) (p : person) (m : entity_mapping) :
  map_entity w p = Ok m ->
  validate w (entity_id m) = Ok true
  /\ forall eids, entity_ids m = Some eids ->
       Forall (fun eid => validate w eid = Ok true) eids.
Proof. apply map_entity_checked. Qed.

Lemma returned_mapping_is_validated_witness :
  map_entity online_world ada
  = Ok (wikidata_mapping online_world "Ada Lovelace" (JStr "Q7259"))
  /\ validate online_world "wikidata:Q7259" = Ok true.
Proof.
  assert (H : map_entity online_world ada
              = Ok (wikidata_mapping online_world "Ada Lovelace" (JStr "Q7259")))
    by reflexivity.
  split; [exact H | exact (proj1 (returned_mapping_is_validated _ _ _ H))].
Defined.

(** X13: the local identifier of the person is in every mapping the
    resolver returns: as the entity_id, without alternates, or as the only
    alternate of a Wikidata entity_id. *)
Theorem returned_mapping_has_local_id (w : world) (p : person) (m : entity_mapping) :
  map_entity w p = Ok m ->
  (entity_id m = "local:women-in-math:" +:+ local_id (full_name p)
   /\ entity_ids m = None)
  \/ (startswith "wikidata:" (entity_id m) = true
      /\ entity_ids m = Some ["local:women-in-math:" +:+ local_id (full_name p)]).
Proof.
  intros [-> | [qid ->]]%map_entity_returns.
  - by left.
  - right. split; [apply prefix_of_app | done].
Qed.

Lemma returned_mapping_has_local_id_witness :
  map_entity online_world ada
  = Ok (wikidata_mapping online_world "Ada Lovelace" (JStr "Q7259"))
  /\ entity_ids (wikidata_mapping online_world "Ada Lovelace" (JStr "Q7259"))
     = Some ["local:women-in-math:ada_lovelace"].
Proof.
  assert (H : map_entity online_world ada
              = Ok (wikidata_mapping online_world "Ada Lovelace" (JStr "Q7259")))
    by reflexivity.
  split; [exact H |].
  destruct (returned_mapping_has_local_id _ _ _ H) as [[Hid _] | [_ Hids]];
    [discriminate Hid | exact Hids].
Defined.

(** X14: with a match (a truthy identifier from the lookup) the resolver
    returns the Wikidata mapping when the validator accepts both the
    Wikidata identifier and the local alternate; the person is refused
    when either is rejected, the alternate included. *)
Theorem map_entity_match (w : world) (p : person) (qid : json) :
  lookup_wikidata w (full_name p) = Ok (Some qid) ->
  truthy qid = true ->
  map_entity w p
  = match validate w ("wikidata:" +:+ format_value w qid) with
    | Ok true =>
        match validate w ("local:women-in-math:" +:+ local_id (full_name p)) with
        | Ok true => Ok (wikidata_mapping w (full_name p) qid)
        | Ok false =>
            Raise (ValueError ("Invalid alternate entity_id: "
                                 +:+ "local:women-in-math:" +:+ local_id (full_name p)))
        | Raise e => Raise e
        end
    | Ok false =>
        Raise (ValueError ("Invalid entity_id: " +:+ "wikidata:" +:+ format_value w qid))
    | Raise e => Raise e
    end.
Proof.
  intros Hlookup Htruthy. unfold map_entity.
  rewrite Hlookup. cbn [bind]. rewrite Htruthy.
  cbn [wikidata_mapping entity_id entity_ids].
  destruct (validate w ("wikidata:" +:+ format_value w qid)) as [[|]|e]; [| done | done].
  cbn [bind negb validate_alternates].
  by destruct (validate w _) as [[|]|e].
Qed.

Lemma map_entity_match_witness :
  lookup_wikidata online_world (full_name ada) = Ok (Some (JStr "Q7259"))
  /\ truthy (JStr "Q7259") = true
  /\ map_entity online_world ada
     = Ok (wikidata_mapping online_world "Ada Lovelace" (JStr "Q7259")).
Proof.
  assert (H1 : lookup_wikidata online_world (full_name ada) = Ok (Some (JStr "Q7259")))
    by reflexivity.
  assert (H2 : truthy (JStr "Q7259") = true) by reflexivity.
  split; [exact H1 |]. split; [exact H2 |].
  exact (map_entity_match online_world ada (JStr "Q7259") H1 H2).
Defined.

(** X15: an identifier that Python takes for false (an empty string, for
    one) is treated as no match: the resolver falls back to the local
    identifier although the search named a mathematician. *)
Theorem falsy_identifier_is_no_match (w : world) (p : person) (qid : json) :
  lookup_wikidata w (full_name p) = Ok (Some qid) ->
  truthy qid = false ->
  map_entity w p
  = match validate w ("local:women-in-math:" +:+ local_id (full_name p)) with
    | Ok true => Ok (local_mapping (full_name p))
    | Ok false =>
        Raise (ValueError ("Invalid entity_id: "
                             +:+ "local:women-in-math:" +:+ local_id (full_name p)))
    | Raise e => Raise e
    end.
Proof.
  intros Hlookup Hfalsy. unfold map_entity.
  rewrite Hlookup. cbn [bind]. rewrite Hfalsy.
  cbn [local_mapping entity_id entity_ids].
  by destruct (validate w _) as [[|]|e].
Qed.

Lemma falsy_identifier_is_no_match_witness :
  lookup_wikidata empty_id_world (full_name ada) = Ok (Some (JStr ""))
  /\ truthy (JStr "") = false
  /\ map_entity empty_id_world ada = Ok (local_mapping "Ada Lovelace").
Proof.
  assert (H1 : lookup_wikidata empty_id_world (full_name ada) = Ok (Some (JStr "")))
    by reflexivity.
  assert (H2 : truthy (JStr "") = false) by reflexivity.
  split; [exact H1 |]. split; [exact H2 |].
  exact (falsy_identifier_is_no_match empty_id_world ada (JStr "") H1 H2).
Defined.

(** ** The documents [prepare] builds *)

Section DocumentProperties.

Variable w : world.
Variable self : adapter.

Lemma prepare_loop_step (p : person) (rows : list person) :
  prepare_loop w self (p :: rows) no_outputs
  = extend (snd (process_record w self p no_outputs))
           (prepare_loop w self rows no_outputs).
Proof. by rewrite prepare_loop_cons, prepare_loop_extend. Qed.

(** What one record appends when the lists are empty. *)
Lemma contribution (p : person) :
  snd (process_record w self p no_outputs) = no_outputs
  \/ exists m a,
       map_entity w p = Ok m /\ make_author p m = Ok a
       /\ authors (snd (process_record w self p no_outputs)) = [a]
       /\ (texts (snd (process_record w self p no_outputs)) = []
           \/ exists f t,
                text_files self !! full_name p = Some f
                /\ text_dir w f = Readable t /\ t <> ""
                /\ texts (snd (process_record w self p no_outputs))
                   = [{| text_entity_id := entity_id m; text := t |}]).
Proof.
  unfold process_record, get_text.
  destruct (map_entity w p) as [m|e] eqn:Hm; [| by left].
  destruct (make_author p m) as [a|e] eqn:Ha; [| by left].
  right. exists m, a. split; [done |]. split; [done |].
  destruct (text_files self !! full_name p) as [f|] eqn:Hf; [| by split; [| left]].
  destruct (text_dir w f) as [|t|e] eqn:Hdir; [by split; [| left] | | by split; [| left]].
  destruct (String.eqb t "") eqn:Ht; cbn [negb snd authors texts app];
    [by split; [| left] |].
  split; [done |]. right. exists f, t. by apply String.eqb_neq in Ht.
Qed.

Lemma author_of_loop (rows : list person) (a : author) :
  a ∈ authors (prepare_loop w self rows no_outputs) ->
  exists p, p ∈ rows /\ a ∈ authors (snd (process_record w self p no_outputs)).
Proof.
  induction rows as [|p rows IH]; [by intros ?%elem_of_nil |].
  rewrite prepare_loop_step. cbn [extend authors].
  intros [Ha | Ha]%elem_of_app.
  - exists p. split; [apply list_elem_of_here | done].
  - destruct (IH Ha) as (q & Hq & Hqa). exists q.
    split; [by apply list_elem_of_further | done].
Qed.

Lemma text_of_loop (rows : list person) (t : text_item) :
  t ∈ texts (prepare_loop w self rows no_outputs) ->
  exists p, p ∈ rows /\ t ∈ texts (snd (process_record w self p no_outputs)).
Proof.
  induction rows as [|p rows IH]; [by intros ?%elem_of_nil |].
  rewrite prepare_loop_step. cbn [extend texts].
  intros [Ht | Ht]%elem_of_app.
  - exists p. split; [apply list_elem_of_here | done].
  - destruct (IH Ht) as (q & Hq & Hqt). exists q.
    split; [by apply list_elem_of_further | done].
Qed.

Lemma contribution_in_loop (rows : list person) (p : person) :
  p ∈ rows ->
  (forall a, a ∈ authors (snd (process_record w self p no_outputs)) ->
             a ∈ authors (prepare_loop w self rows no_outputs)).
Proof.
  induction rows as [|q rows IH]; [by intros ?%elem_of_nil |].
  rewrite prepare_loop_step. cbn [extend authors].
  intros [-> | Hp]%elem_of_cons a Ha; apply elem_of_app; [by left | right; by apply IH].
Qed.

Lemma make_author_fields (p : person) (m : entity_mapping) (a : author) :
  make_author p m = Ok a ->
  author_entity_id a = entity_id m /\ author_entity_ids a = entity_ids m
  /\ author_confidence a = confidence m /\ name a = full_name p
  /\ entity_type a = "person" /\ field (biographical a) = "wikidata:Q395"
  /\ bio_birthplace (biographical a) = birthplace p
  /\ year_of (birthyear p) = Ok (birth_year (biographical a))
  /\ year_of (deathyear p) = Ok (death_year (biographical a)).
Proof.
  unfold make_author.
  destruct (year_of (birthyear p)) as [b|e]; [| done].
  destruct (year_of (deathyear p)) as [d|e]; [| done].
  cbn [bind]. by intros [= <-].
Qed.

(** X16: every entry of the texts list is a non-empty text that carries
    the entity_id of an author of the dataset document; so there are at
    most as many texts as authors. *)
Theorem texts_belong_to_authors :
  (forall t, t ∈ snd (prepare w self) ->
     text t <> ""
     /\ exists a, a ∈ dataset_authors (fst (prepare w self))
                  /\ author_entity_id a = text_entity_id t)
  /\ length (snd (prepare w self)) <= length (dataset_authors (fst (prepare w self))).
Proof.
  unfold prepare. cbn [fst snd dataset_authors]. fold no_outputs. split.
  - intros t (p & Hp & Ht)%text_of_loop.
    destruct (contribution p) as [Hnone | (m & a & Hm & Ha & Hauth & Htexts)].
    { rewrite Hnone in Ht. by apply elem_of_nil in Ht. }
    destruct Htexts as [Hnil | (f & s & _ & _ & Hs & Htext)].
    { rewrite Hnil in Ht. by apply elem_of_nil in Ht. }
    rewrite Htext in Ht. apply list_elem_of_singleton in Ht as ->.
    split; [done |]. exists a. split.
    + apply (contribution_in_loop _ p Hp). rewrite Hauth. apply list_elem_of_here.
    + by destruct (make_author_fields p m a Ha) as [-> _].
  - induction (personal self) as [|p rows IH]; [done |].
    rewrite prepare_loop_step. cbn [extend authors texts]. rewrite !length_app.
    destruct (contribution p) as [-> | (m & a & _ & _ & -> & [-> | (f & s & _ & _ & _ & ->)])];
      simpl; lia.
Qed.

(** X17: every entry of the texts list is the content of the file that
    [__init__] matched to a person of the table, read from the text
    directory, under the entity_id the resolver returned for that person. *)
Theorem texts_come_from_matched_files (t : text_item) :
  t ∈ snd (prepare w self) ->
  exists p f m,
    p ∈ personal self
    /\ text_files self !! full_name p = Some f
    /\ text_dir w f = Readable (text t)
    /\ map_entity w p = Ok m
    /\ text_entity_id t = entity_id m.
Proof.
  unfold prepare. cbn [snd]. fold no_outputs.
  intros (p & Hp & Ht)%text_of_loop.
  destruct (contribution p) as [Hnone | (m & a & Hm & Ha & Hauth & Htexts)].
  { rewrite Hnone in Ht. by apply elem_of_nil in Ht. }
  destruct Htexts as [Hnil | (f & s & Hf & Hdir & Hs & Htext)].
  { rewrite Hnil in Ht. by apply elem_of_nil in Ht. }
  rewrite Htext in Ht. apply list_elem_of_singleton in Ht as ->.
  by exists p, f, m.
Qed.

(** X18: every author of the dataset document comes from a row of the
    table: it has the name and the birthplace of the row, the years of the
    row (none for a missing cell), an entity_id the validator accepted, the
    type "person" and the field "wikidata:Q395". *)
Theorem authors_come_from_rows (a : author) :
  a ∈ dataset_authors (fst (prepare w self)) ->
  exists p,
    p ∈ personal self
    /\ name a = full_name p
    /\ bio_birthplace (biographical a) = birthplace p
    /\ year_of (birthyear p) = Ok (birth_year (biographical a))
    /\ year_of (deathyear p) = Ok (death_year (biographical a))
    /\ validate w (author_entity_id a) = Ok true
    /\ entity_type a = "person"
    /\ field (biographical a) = "wikidata:Q395".
Proof.
  unfold prepare. cbn [fst dataset_authors]. fold no_outputs.
  intros (p & Hp & Ha)%author_of_loop.
  destruct (contribution p) as [Hnone | (m & a' & Hm & Hmake & Hauth & _)].
  { rewrite Hnone in Ha. by apply elem_of_nil in Ha. }
  rewrite Hauth in Ha. apply list_elem_of_singleton in Ha as ->.
  destruct (make_author_fields p m a' Hmake)
    as (Hid & _ & _ & Hname & Htype & Hfield & Hplace & Hbirth & Hdeath).
  exists p. rewrite Hid. repeat split; try done.
  by apply (map_entity_checked w p m).
Qed.

(** X19: the authors keep the order of the table: their names are the
    names of the rows with some rows left out. *)
Theorem authors_in_table_order :
  map name (dataset_authors (fst (prepare w self)))
    `sublist_of` map full_name (personal self).
Proof.
  unfold prepare. cbn [fst dataset_authors]. fold no_outputs.
  induction (personal self) as [|p rows IH]; [done |].
  rewrite prepare_loop_step. cbn [extend authors map]. rewrite map_app.
  destruct (contribution p) as [-> | (m & a & _ & Hmake & -> & _)].
  - cbn [no_outputs authors map app]. by apply sublist_cons.
  - cbn [map app].
    destruct (make_author_fields p m a Hmake) as (_ & _ & _ & -> & _).
    by apply sublist_skip.
Qed.

(** X20: when no record raises, the dataset document has one author per
    row, in the order of the rows. *)
Theorem every_row_becomes_an_author :
  (forall p, p ∈ personal self -> fst (process_record w self p no_outputs) = Ok tt) ->
  map name (dataset_authors (fst (prepare w self))) = map full_name (personal self).
Proof.
  unfold prepare. cbn [fst dataset_authors]. fold no_outputs.
  induction (personal self) as [|p rows IH]; [done |]. intros Hok.
  rewrite prepare_loop_step. cbn [extend authors map]. rewrite map_app.
  rewrite IH by (intros q Hq; by apply Hok, list_elem_of_further).
  pose proof (Hok p (list_elem_of_here _ _)) as Hp.
  unfold process_record in *.
  destruct (map_entity w p) as [m|e]; [| done].
  destruct (make_author p m) as [a|e] eqn:Hmake; [| done].
  destruct (make_author_fields p m a Hmake) as (_ & _ & _ & Hname & _).
  destruct (get_text w self (full_name p)) as [[t|]|e]; [| | done];
    [destruct (negb (String.eqb t "")) |];
    cbn [snd authors no_outputs app map]; by rewrite Hname.
Qed.

Lemma prefix_partition (l : list author) :
  Forall (fun a => startswith "wikidata:" (author_entity_id a)
                   = negb (startswith "local:" (author_entity_id a))) l ->
  (count_prefix "wikidata:" l + count_prefix "local:" l = length l)%nat.
Proof.
  unfold count_prefix.
  induction 1 as [|a l Ha _ IH]; [done |].
  cbn [List.filter]. rewrite Ha.
  destruct (startswith "local:" (author_entity_id a)); cbn [negb length]; lia.
Qed.

(** X21: in the summary [save] prints for a dataset built by [prepare],
    the Wikidata count and the local count add up to the number of
    authors. *)
Theorem summary_counts_add_up :
  (wikidata_count (fst (prepare w self)) + local_count (fst (prepare w self))
   = length (dataset_authors (fst (prepare w self))))%nat.
Proof.
  unfold wikidata_count, local_count. apply prefix_partition.
  apply Forall_forall. intros a Ha.
  unfold prepare in Ha. cbn [fst dataset_authors] in Ha. fold no_outputs in Ha.
  apply author_of_loop in Ha as (p & _ & Ha).
  destruct (contribution p) as [Hnone | (m & a' & Hm & Hmake & Hauth & _)].
  { rewrite Hnone in Ha. by apply elem_of_nil in Ha. }
  rewrite Hauth in Ha. apply list_elem_of_singleton in Ha as ->.
  destruct (make_author_fields p m a' Hmake) as (-> & _).
  apply map_entity_returns in Hm as [-> | [qid ->]]; [reflexivity |].
  cbn [wikidata_mapping entity_id]. by rewrite prefix_of_app.
Qed.

End DocumentProperties.

Lemma texts_belong_to_authors_witness :
  {| text_entity_id := "local:women-in-math:ada_lovelace"; text := "Ada" |}
    ∈ snd (prepare open_world ada_adapter)
  /\ exists a, a ∈ dataset_authors (fst (prepare open_world ada_adapter))
               /\ author_entity_id a = "local:women-in-math:ada_lovelace".
Proof.
  assert (H : {| text_entity_id := "local:women-in-math:ada_lovelace"; text := "Ada" |}
                ∈ snd (prepare open_world ada_adapter))
    by (vm_compute; apply list_elem_of_here).
  split; [exact H |].
  exact (proj2 (proj1 (texts_belong_to_authors open_world ada_adapter) _ H)).
Defined.

Lemma texts_come_from_matched_files_witness :
  {| text_entity_id := "local:women-in-math:ada_lovelace"; text := "Ada" |}
    ∈ snd (prepare open_world ada_adapter)
  /\ exists p f m,
       p ∈ personal ada_adapter
       /\ text_files ada_adapter !! full_name p = Some f
       /\ text_dir open_world f = Readable "Ada"
       /\ map_entity open_world p = Ok m
       /\ "local:women-in-math:ada_lovelace" = entity_id m.
Proof.
  assert (H : {| text_entity_id := "local:women-in-math:ada_lovelace"; text := "Ada" |}
                ∈ snd (prepare open_world ada_adapter))
    by (vm_compute; apply list_elem_of_here).
  split; [exact H |].
  exact (texts_come_from_matched_files open_world ada_adapter _ H).
Defined.

Lemma authors_come_from_rows_witness :
  ada_author ∈ dataset_authors (fst (prepare open_world ada_adapter))
  /\ exists p, p ∈ personal ada_adapter /\ name ada_author = full_name p.
Proof.
  assert (H : ada_author ∈ dataset_authors (fst (prepare open_world ada_adapter)))
    by (vm_compute; apply list_elem_of_here).
  split; [exact H |].
  destruct (authors_come_from_rows open_world ada_adapter _ H) as (p & Hp & Hname & _).
  by exists p.
Defined.

Lemma every_row_becomes_an_author_witness :
  (forall p, p ∈ personal ada_adapter ->
             fst (process_record open_world ada_adapter p no_outputs) = Ok tt)
  /\ map name (dataset_authors (fst (prepare open_world ada_adapter))) = ["Ada Lovelace"].
Proof.
  assert (H : forall p, p ∈ personal ada_adapter ->
                fst (process_record open_world ada_adapter p no_outputs) = Ok tt).
  { intros p Hp. apply list_elem_of_singleton in Hp as ->. vm_compute. reflexivity. }
  split; [exact H |].
  exact (every_row_becomes_an_author open_world ada_adapter H).
Defined.

(** ** The requests of the submitter *)

Section RequestProperties.

Variable api_url : string.
Variable server : list request -> request -> result response.

(** X22: [submit_metadata] reports success exactly when the dataset file
    could be loaded and the service answered its POST with status 200 and a
    JSON object; a 200 whose body is not a JSON object counts as a
    failure. *)
Theorem metadata_success_iff (dir : output_dir) (log : list request) :
  fst (submit_metadata api_url dir server log) = Ok true
  <-> exists doc resp d,
        dataset_file dir = Stored (Ok doc)
        /\ server log {| url := metadata_url api_url; payload := doc |} = Ok resp
        /\ status_code resp = 200%Z
        /\ response_json resp = Ok (JObj d).
Proof.
  unfold submit_metadata. split.
  - destruct (dataset_file dir) as [|[doc|e]]; [done | | done]. cbn [fst].
    destruct (server log _) as [resp|e] eqn:Hcall; [| by destruct e].
    cbn [bind try_except].
    destruct (status_code resp =? 200)%Z eqn:Hstatus; [| done].
    destruct (response_json resp) as [[| | | | |d]|e] eqn:Hjson; try done;
      try (by destruct e).
    intros _. exists doc, resp, d. by apply Z.eqb_eq in Hstatus.
  - intros (doc & resp & d & -> & Hcall & Hstatus & Hjson). cbn [fst].
    rewrite Hcall. cbn [bind]. rewrite Hstatus, Hjson. done.
Qed.

Lemma ingest_loop_sent (items : list json) (success failed : nat) (log : list request) :
  exists sent,
    snd (ingest_loop api_url server items success failed log) = log ++ sent
    /\ Forall (fun req => url req = ingest_url api_url) sent
    /\ forall success' failed',
         fst (ingest_loop api_url server items success failed log)
         = Ok (success', failed') ->
         (success' + failed' = success + failed + length sent)%nat.
Proof.
  revert success failed log.
  induction items as [|text_data items IH]; intros success failed log.
  - exists []. cbn [ingest_loop fst snd]. rewrite app_nil_r.
    split; [done |]. split; [constructor |]. intros s f [= <- <-]. simpl. lia.
  - cbn [ingest_loop].
    destruct (entity_id <~ py_getitem text_data "entity_id" ;;
              text <~ py_getitem text_data "text" ;;
              _ <~ py_slice entity_id ;;
              Ok (ingest_request api_url entity_id text)) as [req|e] eqn:Hreq.
    + assert (Hurl : url req = ingest_url api_url).
      { destruct (py_getitem text_data "entity_id") as [eid|]; [| done].
        destruct (py_getitem text_data "text") as [txt|]; [| done].
        cbn [bind] in Hreq. destruct (py_slice eid); [| done].
        cbn [bind] in Hreq. by injection Hreq as <-. }
      destruct (ingest_attempt server log req).
      * destruct (IH (S success) failed (log ++ [req])) as (sent & Hlog & Hall & Hsum).
        exists (req :: sent). rewrite Hlog, <- app_assoc.
        split; [done |]. split; [by constructor |].
        intros s f Hres. rewrite (Hsum s f Hres). simpl. lia.
      * destruct (IH success (S failed) (log ++ [req])) as (sent & Hlog & Hall & Hsum).
        exists (req :: sent). rewrite Hlog, <- app_assoc.
        split; [done |]. split; [by constructor |].
        intros s f Hres. rewrite (Hsum s f Hres). simpl. lia.
    + exists []. cbn [fst snd]. rewrite app_nil_r.
      split; [done |]. split; [constructor | done].
Qed.

Lemma submit_texts_sent (dir : output_dir) (log : list request) :
  exists sent,
    snd (submit_texts api_url dir server log) = log ++ sent
    /\ Forall (fun req => url req = ingest_url api_url) sent
    /\ forall n, fst (submit_texts api_url dir server log) = Ok n -> (n <= length sent)%nat.
Proof.
  assert (Hnone : forall r : result nat,
            (forall n, r = Ok n -> n = 0%nat) ->
            exists sent,
              snd (r, log) = log ++ sent
              /\ Forall (fun req => url req = ingest_url api_url) sent
              /\ forall n, fst (r, log) = Ok n -> (n <= length sent)%nat).
  { intros r Hr. exists []. cbn [fst snd]. rewrite app_nil_r.
    split; [done |]. split; [constructor |]. intros n ->%Hr. lia. }
  unfold submit_texts.
  destruct (texts_file dir) as [|loaded]; [apply Hnone; by intros n [= <-] |].
  destruct (data <~ loaded ;; py_get data "texts" (JArr [])) as [texts|e];
    [| by apply Hnone].
  destruct (negb (truthy texts)); [apply Hnone; by intros n [= <-] |].
  destruct (_ <~ py_len texts ;; py_iter texts) as [items|e]; [| by apply Hnone].
  destruct (ingest_loop_sent items 0 0 log) as (sent & Hlog & Hall & Hsum).
  exists sent.
  destruct (ingest_loop api_url server items 0 0 log) as [[[s f]|e] log'];
    cbn [fst snd] in *; (split; [done |]); (split; [done |]); [| done].
  intros n [= <-]. specialize (Hsum s f eq_refl). lia.
Qed.

(** X23: whatever [texts.json] holds and whatever the service does,
    [submit_texts] only adds requests to the ingestion URL, after the
    requests already sent, and the number it returns is at most the number
    of requests it sent. *)
Theorem submit_texts_only_ingests (dir : output_dir) (log : list request) :
  exists sent,
    snd (submit_texts api_url dir server log) = log ++ sent
    /\ Forall (fun req => url req = ingest_url api_url) sent
    /\ forall n, fst (submit_texts api_url dir server log) = Ok n -> (n <= length sent)%nat.
Proof. apply submit_texts_sent. Qed.

Lemma ingest_loop_good_prefix (good : list text_item) (more : list json)
    (success failed : nat) (log : list request) :
  exists success' failed',
    ingest_loop api_url server (map item_json good ++ more) success failed log
    = ingest_loop api_url server more success' failed'
        (log ++ map (request_of api_url) good).
Proof.
  revert success failed log.
  induction good as [|t good IH]; intros success failed log.
  - exists success, failed. cbn [map app]. by rewrite app_nil_r.
  - cbn [map app ingest_loop].
    change (entity_id <~ py_getitem (item_json t) "entity_id" ;;
            text <~ py_getitem (item_json t) "text" ;;
            _ <~ py_slice entity_id ;;
            Ok (ingest_request api_url entity_id text))
      with (Ok (request_of api_url t)).
    cbv beta iota.
    destruct (ingest_attempt server log (request_of api_url t)).
    + destruct (IH (S success) failed (log ++ [request_of api_url t])) as (s & f & ->).
      exists s, f. by rewrite <- app_assoc.
    + destruct (IH success (S failed) (log ++ [request_of api_url t])) as (s & f & ->).
      exists s, f. by rewrite <- app_assoc.
Qed.

(** X24: an item of the texts list whose "entity_id" cannot be read (the
    key is missing, or the item is not an object) ends [submit_texts] with
    that exception: the well-formed items before it have been sent, the
    items after it are never attempted. *)
Theorem malformed_item_stops_ingestion (dataset : stored) (fields : list (string * json))
    (good : list text_item) (bad : json) (rest : list json) (e : exn)
    (log : list request) :
  assoc "texts" fields = Some (JArr (map item_json good ++ bad :: rest)) ->
  py_getitem bad "entity_id" = Raise e ->
  submit_texts api_url
    {| dataset_file := dataset; texts_file := Stored (Ok (JObj fields)) |} server log
  = (Raise e, log ++ map (request_of api_url) good).
Proof.
  intros Htexts Hbad. unfold submit_texts.
  cbn [texts_file bind py_get]. rewrite Htexts.
  assert (Htruthy : truthy (JArr (map item_json good ++ bad :: rest)) = true)
    by (by destruct good).
  rewrite Htruthy. cbn [negb py_len py_iter bind].
  destruct (ingest_loop_good_prefix good (bad :: rest) 0 0 log) as (s & f & ->).
  cbn [ingest_loop]. by rewrite Hbad.
Qed.

Lemma submit_texts_of_document (dataset : stored) (items : list text_item)
    (log : list request) :
  exists success_count,
    submit_texts api_url
      {| dataset_file := dataset; texts_file := Stored (Ok (texts_document items)) |}
      server log
    = (Ok success_count, log ++ map (request_of api_url) items)
    /\ (success_count <= length items)%nat.
Proof.
  destruct (ingest_loop_counts api_url server items 0 0 log) as (s & f & Hloop & Hsum).
  exists s. split; [| lia].
  destruct items as [|t items].
  - cbn [map ingest_loop] in *. rewrite app_nil_r in *. by injection Hloop as <- _.
  - unfold submit_texts, texts_document.
    cbn [texts_file bind py_get assoc String.eqb Ascii.eqb Bool.eqb].
    cbn [map truthy negb py_len py_iter bind].
    cbn [map] in Hloop. by rewrite Hloop.
Qed.

(** X25: a full run whose metadata submission succeeds returns normally
    after exactly these requests, in this order: the dataset document to
    the metadata URL, then one ingestion request per item of the texts
    document. *)
Theorem full_run_requests (dir : output_dir) (doc : json) (items : list text_item) :
  dataset_file dir = Stored (Ok doc) ->
  texts_file dir = Stored (Ok (texts_document items)) ->
  fst (submit_metadata api_url dir server []) = Ok true ->
  submit_all api_url dir server []
  = (Ok tt,
     {| url := metadata_url api_url; payload := doc |}
       :: map (request_of api_url) items).
Proof.
  destruct dir as [dfile tfile]. cbn [dataset_file texts_file].
  intros -> -> Hmeta. unfold submit_all.
  destruct (submit_metadata api_url _ server []) as [r log'] eqn:Hsub.
  cbn [fst] in Hmeta. subst r.
  assert (Hlog : log' = [{| url := metadata_url api_url; payload := doc |}]).
  { unfold submit_metadata in Hsub. cbn [dataset_file] in Hsub. by injection Hsub as _ <-. }
  subst log'.
  destruct (submit_texts_of_document (Stored (Ok doc)) items
              [{| url := metadata_url api_url; payload := doc |}]) as (s & -> & _).
  done.
Qed.

Lemma submit_texts_document_count (dataset : stored) (items : list text_item)
    (log : list request) :
  fst (submit_texts api_url
         {| dataset_file := dataset; texts_file := Stored (Ok (texts_document items)) |}
         server log)
  = match fst (ingest_loop api_url server (map item_json items) 0 0 log) with
    | Ok (success_count, _) => Ok success_count
    | Raise e => Raise e
    end.
Proof.
  destruct items as [|t items]; [done |].
  unfold submit_texts, texts_document.
  cbn [texts_file bind py_get assoc String.eqb Ascii.eqb Bool.eqb].
  cbn [map truthy negb py_len py_iter bind].
  by destruct (ingest_loop api_url server _ 0 0 log) as [[[s f]|e] log'].
Qed.

Lemma ingest_loop_uniform (b : bool) (items : list text_item) (success failed : nat)
    (log : list request) :
  (forall log req, ingest_attempt server log req = b) ->
  fst (ingest_loop api_url server (map item_json items) success failed log)
  = Ok (if b then (success + length items, failed)%nat
        else (success, failed + length items)%nat).
Proof.
  intros Hb. revert success failed log.
  induction items as [|t items IH]; intros success failed log.
  - cbn [map ingest_loop fst length]. rewrite !Nat.add_0_r. by destruct b.
  - cbn [map ingest_loop].
    change (entity_id <~ py_getitem (item_json t) "entity_id" ;;
            text <~ py_getitem (item_json t) "text" ;;
            _ <~ py_slice entity_id ;;
            Ok (ingest_request api_url entity_id text))
      with (Ok (request_of api_url t)).
    cbv beta iota. rewrite Hb.
    destruct b; rewrite IH; cbn [length]; do 2 f_equal; lia.
Qed.

(** X26: when the service answers every ingestion with status 200 and a
    JSON object, [submit_texts] returns the number of items of the texts
    document. *)
Theorem all_accepted_count (dataset : stored) (items : list text_item)
    (log : list request) :
  (forall log req, exists d,
      server log req = Ok {| status_code := 200; response_json := Ok (JObj d) |}) ->
  fst (submit_texts api_url
         {| dataset_file := dataset; texts_file := Stored (Ok (texts_document items)) |}
         server log)
  = Ok (length items).
Proof.
  intros Hserver. rewrite submit_texts_document_count.
  rewrite (ingest_loop_uniform true); [done |].
  intros log' req. unfold ingest_attempt.
  destruct (Hserver log' req) as [d ->]. reflexivity.
Qed.

(** X27: when the service never answers with status 200, [submit_texts]
    returns 0 for every texts document. *)
Theorem none_accepted_count (dataset : stored) (items : list text_item)
    (log : list request) :
  (forall log req resp, server log req = Ok resp -> status_code resp <> 200%Z) ->
  fst (submit_texts api_url
         {| dataset_file := dataset; texts_file := Stored (Ok (texts_document items)) |}
         server log)
  = Ok 0%nat.
Proof.
  intros Hserver. rewrite submit_texts_document_count.
  rewrite (ingest_loop_uniform false); [done |].
  intros log' req. unfold ingest_attempt.
  destruct (server log' req) as [resp|e] eqn:Hcall; [| done].
  cbn [bind]. destruct (status_code resp =? 200)%Z eqn:Hstatus; [| done].
  apply Z.eqb_eq in Hstatus. by destruct (Hserver log' req resp Hcall).
Qed.

(** X28: with [--metadata-only], alone or together with [--texts-only],
    [main] sends no ingestion request; with [--texts-only] alone every
    request it sends is an ingestion request, so the metadata is not
    submitted. *)
Theorem main_flags (texts_only : bool) (dir : output_dir) :
  Forall (fun req => url req <> ingest_url api_url)
    (snd (main api_url true texts_only dir server []))
  /\ Forall (fun req => url req = ingest_url api_url)
       (snd (main api_url false true dir server [])).
Proof.
  unfold main, discard. cbn [snd]. split.
  - destruct (submit_metadata_log api_url server dir []) as [-> | [doc ->]];
      [constructor |].
    repeat constructor. apply metadata_url_not_ingest.
  - destruct (submit_texts_sent dir []) as (sent & -> & Hall & _). done.
Qed.

End RequestProperties.

Lemma malformed_item_stops_ingestion_witness :
  assoc "texts" [("texts", JArr (map item_json sample_items ++ [JObj [("text", JStr "x")]]))]
  = Some (JArr (map item_json sample_items ++ [JObj [("text", JStr "x")]]))
  /\ py_getitem (JObj [("text", JStr "x")]) "entity_id" = Raise (KeyError "entity_id")
  /\ submit_texts localhost
       {| dataset_file := Absent;
          texts_file :=
            Stored (Ok (JObj [("texts",
                               JArr (map item_json sample_items
                                       ++ [JObj [("text", JStr "x")]]))])) |}
       accepting_server []
     = (Raise (KeyError "entity_id"), [] ++ map (request_of localhost) sample_items).
Proof.
  assert (H1 : assoc "texts"
                 [("texts", JArr (map item_json sample_items ++ [JObj [("text", JStr "x")]]))]
               = Some (JArr (map item_json sample_items ++ [JObj [("text", JStr "x")]])))
    by reflexivity.
  assert (H2 : py_getitem (JObj [("text", JStr "x")]) "entity_id"
               = Raise (KeyError "entity_id")) by reflexivity.
  split; [exact H1 |]. split; [exact H2 |].
  exact (malformed_item_stops_ingestion localhost accepting_server Absent _
           sample_items _ [] _ [] H1 H2).
Defined.

Lemma full_run_requests_witness :
  fst (submit_metadata localhost
         (sample_dir (Stored (Ok (texts_document sample_items)))) accepting_server [])
  = Ok true
  /\ submit_all localhost
       (sample_dir (Stored (Ok (texts_document sample_items)))) accepting_server []
     = (Ok tt,
        {| url := metadata_url localhost;
           payload := JObj [("dataset_id", JStr "women-in-math")] |}
          :: map (request_of localhost) sample_items).
Proof.
  assert (H : fst (submit_metadata localhost
                     (sample_dir (Stored (Ok (texts_document sample_items))))
                     accepting_server [])
              = Ok true) by reflexivity.
  split; [exact H |].
  exact (full_run_requests localhost accepting_server
           (sample_dir (Stored (Ok (texts_document sample_items))))
           (JObj [("dataset_id", JStr "women-in-math")]) sample_items
           eq_refl eq_refl H).
Defined.

Lemma all_accepted_count_witness :
  (forall (log : list request) (req : request), exists d,
      accepting_server log req
      = Ok {| status_code := 200; response_json := Ok (JObj d) |})
  /\ fst (submit_texts localhost
            (sample_dir (Stored (Ok (texts_document sample_items)))) accepting_server [])
     = Ok 2%nat.
Proof.
  assert (H : forall (log : list request) (req : request), exists d,
                accepting_server log req
                = Ok {| status_code := 200; response_json := Ok (JObj d) |})
    by (intros log req; by exists []).
  split; [exact H |].
  exact (all_accepted_count localhost accepting_server _ sample_items [] H).
Defined.

Lemma none_accepted_count_witness :
  (forall log req resp, failing_server log req = Ok resp -> status_code resp <> 200%Z)
  /\ fst (submit_texts localhost
            (sample_dir (Stored (Ok (texts_document sample_items)))) failing_server [])
     = Ok 0%nat.
Proof.
  assert (H : forall log req resp,
                failing_server log req = Ok resp -> status_code resp <> 200%Z)
    by (intros log req resp [= <-]; discriminate).
  split; [exact H |].
  exact (none_accepted_count localhost failing_server _ sample_items [] H).
Defined.

(** ** Two more properties of the key and of the builder *)

(** X29: for a file named [base.txt] or [base.pdf.txt], where [base]
    holds no period, the comparison key is [base]. *)
Theorem stem_strips_extension (base : string) :
  Forall (fun c => c <> "."%char) (list_ascii_of_string base) ->
  stem (base +:+ ".pdf.txt") = base /\ stem (base +:+ ".txt") = base.
Proof. apply stem_of_plain_name. Qed.

Lemma stem_strips_extension_witness :
  Forall (fun c => c <> "."%char) (list_ascii_of_string "adams_rachel")
  /\ stem ("adams_rachel" +:+ ".pdf.txt") = "adams_rachel".
Proof.
  assert (H : Forall (fun c => c <> "."%char) (list_ascii_of_string "adams_rachel"))
    by (repeat constructor; discriminate).
  split; [exact H | exact (proj1 (stem_strips_extension _ H))].
Defined.

(** X30: the records are processed independently: for a table made of two
    parts, the authors and the texts are those of the first part followed by
    those of the second part. *)
Theorem prepare_of_concatenation (w : world) (mapping : gmap string string)
    (rows1 rows2 : list person) :
  dataset_authors (fst (prepare w {| personal := rows1 ++ rows2; text_files := mapping |}))
  = dataset_authors (fst (prepare w {| personal := rows1; text_files := mapping |}))
    ++ dataset_authors (fst (prepare w {| personal := rows2; text_files := mapping |}))
  /\ snd (prepare w {| personal := rows1 ++ rows2; text_files := mapping |})
     = snd (prepare w {| personal := rows1; text_files := mapping |})
       ++ snd (prepare w {| personal := rows2; text_files := mapping |}).
Proof.
  unfold prepare. cbn [fst snd dataset_authors personal]. fold no_outputs.
  set (whole := {| personal := rows1 ++ rows2; text_files := mapping |}).
  set (part1 := {| personal := rows1; text_files := mapping |}).
  set (part2 := {| personal := rows2; text_files := mapping |}).
  rewrite (prepare_loop_text_files w part1 whole) by done.
  rewrite (prepare_loop_text_files w part2 whole) by done.
  rewrite prepare_loop_app.
  rewrite (prepare_loop_extend w whole rows2 (prepare_loop w whole rows1 no_outputs)).
  done.
Qed.
